(** * dis_snek: entities, assets and scales

    A shallow embedding of the entity layer of dis_snek
    ([models/discord_objects/asset.py], [emoji.py], [sticker.py]) and of
    [models/scale.py], together with the properties their documentation
    states.  Python objects are records, dictionaries owned by the client are
    finite maps, payload dictionaries are insertion-ordered association
    lists, [int] is [Z], and a call that may raise returns a [result]. *)

From Stdlib Require Import ZArith Lia Ascii String.
From stdpp Require Import gmap strings list fin_maps pretty.

Set Warnings "-register-all,-clear-no-such-hyp".
Open Scope string_scope.
Open Scope Z_scope.

(** ** Python values, truth values and exceptions *)

Module Py.

(** The exception classes the modelled code raises or lets through. *)
Inductive exn : Type :=
| ValueError (msg : string)
| TypeError (msg : string)
| KeyError (key : string)
| AttributeError (attr : string)
| CancelledError
| HTTPException (status : Z).

Inductive result (A : Type) : Type :=
| Ok (a : A)
| Raise (e : exn).
Arguments Ok {A} a.
Arguments Raise {A} e.

Definition is_ok {A} (r : result A) : bool :=
  match r with Ok _ => true | Raise _ => false end.

Definition raises {A} (r : result A) : Prop := exists e, r = Raise e.

(** Values that travel in payload dictionaries.  [VMissing] is the
    [MISSING] sentinel of [dis_snek.const]: an object of its own,
    different from [None]. *)
Inductive value : Type :=
| VNone
| VMissing
| VBool (b : bool)
| VInt (z : Z)
| VStr (s : string)
| VList (l : list value)
| VDict (d : list (string * value)).

(** [bool(v)].  The sentinel is never tested by the code below. *)
Definition truthy (v : value) : bool :=
  match v with
  | VNone => false
  | VMissing => false
  | VBool b => b
  | VInt z => negb (z =? 0)
  | VStr s => negb (String.eqb s "")
  | VList l => match l with [] => false | _ => true end
  | VDict d => match d with [] => false | _ => true end
  end.

(** [v is None] *)
Definition is_none (v : value) : bool :=
  match v with VNone => true | _ => false end.

(** Truth value of an [Optional[int]], [Optional[str]], [Optional[bool]]. *)
Definition int_truthy (o : option Z) : bool :=
  match o with Some z => negb (z =? 0) | None => false end.

Definition str_truthy (o : option string) : bool :=
  match o with Some s => negb (String.eqb s "") | None => false end.

Definition bool_truthy (o : option bool) : bool :=
  match o with Some b => b | None => false end.

(** *** Payload dictionaries

    A [dict] keeps insertion order; a key occurs at most once. *)
Definition dict : Type := list (string * value).

Fixpoint dict_get (k : string) (d : dict) : option value :=
  match d with
  | [] => None
  | (k', v) :: d' => if String.eqb k k' then Some v else dict_get k d'
  end.

Definition dict_contains (k : string) (d : dict) : bool :=
  match dict_get k d with Some _ => true | None => false end.

Fixpoint dict_remove (k : string) (d : dict) : dict :=
  match d with
  | [] => []
  | (k', v) :: d' =>
      if String.eqb k k' then dict_remove k d' else (k', v) :: dict_remove k d'
  end.

(** [d[k] = v]: an existing key keeps its place, a new one goes last. *)
Fixpoint dict_set (k : string) (v : value) (d : dict) : dict :=
  match d with
  | [] => [(k, v)]
  | (k', v') :: d' =>
      if String.eqb k k' then (k, v) :: d' else (k', v') :: dict_set k v d'
  end.

(** [d.pop(k, None)]: the value (or [None]) and the dictionary without [k]. *)
Definition dict_pop_default (k : string) (d : dict) : value * dict :=
  (default VNone (dict_get k d), dict_remove k d).

Definition dict_keys (d : dict) : list string := map fst d.

(** [str.format] with one positional argument, for format strings whose
    replacement fields are all the automatic field [{}] and whose other
    braces are doubled.  [None] when Python raises (a lone brace, a second
    automatic field) or when the field is of another kind. *)
Fixpoint format_go (used : bool) (arg : string) (s : string) : option string :=
  match s with
  | EmptyString => Some EmptyString
  | String c r =>
      if Ascii.eqb c "{"%char then
        match r with
        | String c' r' =>
            if Ascii.eqb c' "{"%char then String c <$> format_go used arg r'
            else if Ascii.eqb c' "}"%char then
                   if used then None
                   else String.append arg <$> format_go true arg r'
                 else None
        | EmptyString => None
        end
      else if Ascii.eqb c "}"%char then
        match r with
        | String c' r' =>
            if Ascii.eqb c' "}"%char then String c <$> format_go used arg r'
            else None
        | EmptyString => None
        end
      else String c <$> format_go used arg r
  end.

Definition format1 (fmt arg : string) : option string := format_go false arg fmt.

End Py.

Import Py.

(** ** Stateful code

    A method runs against a mutable state [S] (the object it is called on and
    whatever its collaborators hold) and either returns or raises; the state
    it leaves behind is observable in both cases. *)

Definition M (S A : Type) : Type := S -> result A * S.

Definition ret {S A} (a : A) : M S A := fun s => (Ok a, s).
Definition throw {S A} (e : exn) : M S A := fun s => (Raise e, s).
Definition bind {S A B} (m : M S A) (k : A -> M S B) : M S B :=
  fun s => match m s with
           | (Ok a, s') => k a s'
           | (Raise e, s') => (Raise e, s')
           end.
Definition lift {S A} (r : result A) : M S A := fun s => (r, s).
Definition get_state {S} : M S S := fun s => (Ok s, s).
Definition put_state {S} (s : S) : M S unit := fun _ => (Ok tt, s).

#[global] Instance M_ret {S} : MRet (M S) := @ret S.
#[global] Instance M_bind {S} : MBind (M S) := fun A B k m => bind m k.

(** ** The HTTP collaborator

    The client's HTTP layer is outside this code.  Every call made to it is
    appended to a log, and what it answers is left open: it may return a
    value or raise, [CancelledError] included when the caller cancels the
    task while it awaits. *)

Inductive Snake : Type := SnakeRef (n : nat).

Inductive HttpCall : Type :=
| request_cdn (url : string)
| modify_guild_emoji (payload : dict) (guild_id : option Z) (id : option Z) (reason : value)
| delete_guild_emoji (guild_id : option Z) (id : option Z) (reason : value)
| modify_guild_sticker (payload : dict) (guild_id : option Z) (id : Z) (reason : value)
| delete_guild_sticker (guild_id : option Z) (id : Z) (reason : value).

Definition Http : Type := list HttpCall.

(** The answer may depend on the calls made before. *)
Definition Answer : Type := Http -> HttpCall -> result value.

(** An entity [E] together with the log of HTTP calls. *)
Definition St (E : Type) : Type := (E * Http)%type.

Definition self {E} : M (St E) E := fun s => (Ok s.1, s).
Definition set_self {E} (e : E) : M (St E) unit := fun s => (Ok tt, (e, s.2)).

(** [await self._client.http.<call>] *)
Definition await {E} (answer : Answer) (c : HttpCall) : M (St E) value :=
  fun s => (answer s.2 c, (s.1, (s.2 ++ [c])%list)).

(** A parameter with a default: [None] when the caller leaves it out. *)
Definition param (dflt : value) (given : option value) : value := default dflt given.

(** ** utils/serializer.py *)

Module Serializer.

(** Modelled from the spec: [dict_filter_none] of
    [dis_snek/utils/serializer.py], which is not among the sources (only
    its callers [CustomEmoji.edit] and [Sticker.edit] are).  It builds the
    partial-update payload from the keyword dictionary by dropping, as its
    name says, the entries whose value is [None]; every other entry is
    kept, in order.  The spec describes the unset sentinel [MISSING] as a
    default distinct from [None]. *)
Definition dict_filter_none (data : dict) : dict :=
  List.filter (fun kv => negb (is_none kv.2)) data.

End Serializer.

(** ** models/snowflake.py *)

Module Snowflake.

Definition digit_of (c : ascii) : option Z :=
  let n := Z.of_nat (nat_of_ascii c) in
  if (48 <=? n) && (n <=? 57) then Some (n - 48) else None.

Fixpoint parse_digits (acc : Z) (s : string) : option Z :=
  match s with
  | EmptyString => Some acc
  | String c r => d ← digit_of c; parse_digits (10 * acc + d) r
  end.

(** Modelled from the spec: [to_snowflake] of [dis_snek/models/snowflake.py],
    which is not among the sources.  An identifier is built from an integer
    or from a numeric string and is kept as an integer; a string that is
    not numeric is refused. *)
Definition to_snowflake (v : value) : result Z :=
  match v with
  | VInt z => Ok z
  | VStr s =>
      match s with
      | EmptyString => Raise (ValueError "ID (snowflake) is not numeric")
      | _ => match parse_digits 0 s with
             | Some z => Ok z
             | None => Raise (ValueError "ID (snowflake) is not numeric")
             end
      end
  | _ => Raise (TypeError "ID (snowflake) should be int or str")
  end.

(** [attr.converters.optional(to_snowflake)] *)
Definition optional_to_snowflake (v : value) : result (option Z) :=
  match v with
  | VNone => Ok None
  | _ => match to_snowflake v with Ok z => Ok (Some z) | Raise e => Raise e end
  end.

Fixpoint list_to_snowflake (l : list value) : result (list Z) :=
  match l with
  | [] => Ok []
  | v :: r =>
      match to_snowflake v with
      | Raise e => Raise e
      | Ok z => match list_to_snowflake r with
                | Ok zs => Ok (z :: zs)
                | Raise e => Raise e
                end
      end
  end.

(** [optional(list_converter(to_snowflake))] *)
Definition optional_list_to_snowflake (v : value) : result (option (list Z)) :=
  match v with
  | VNone => Ok None
  | VList l => match list_to_snowflake l with
               | Ok zs => Ok (Some zs)
               | Raise e => Raise e
               end
  | _ => Raise (TypeError "object is not iterable")
  end.

End Snowflake.

(** ** utils/proxy.py: handles over stored identifiers *)

Module Proxy.

(** The cache lookups a handle can be bound to. *)
Inductive CacheMethod : Type := get_user | get_role | get_guild.

Record CacheProxy : Type := mkCacheProxy {
  proxy_id : option Z;
  proxy_client : Snake;
  proxy_method : CacheMethod
}.

Record CacheView : Type := mkCacheView {
  view_ids : option (list Z);
  view_client : Snake;
  view_method : CacheMethod
}.

End Proxy.

(** ** asset.py *)

Module AssetM.

Definition BASE : string := "https://cdn.discordapp.com".

Record Asset : Type := mkAsset {
  _client : Snake;
  url : string;
  hash : option string
}.

Definition from_path_hash (client : Snake) (path : string) (asset_hash : string)
  : option Asset :=
  p ← format1 path asset_hash;
  Some {| _client := client;
          url := BASE +:+ "/" +:+ p;
          hash := Some asset_hash |}.

(** The property is annotated [bool] and returns [None] for a missing or
    empty hash. *)
Definition animated (self : Asset) : option bool :=
  if negb (str_truthy (hash self)) then None
  else match hash self with
       | Some h => Some (String.prefix "a_" h)
       | None => None
       end.

Definition default_extension (self : Asset) (extension : option string) : string :=
  if negb (str_truthy extension)
  then (if bool_truthy (animated self) then ".gif" else ".png")
  else default "" extension.

(** The URL [get] requests, or the exception it raises before any request. *)
Definition get_url (self : Asset) (extension : option string) (size : option Z)
  : result string :=
  let extension := default_extension self extension in
  let url := url self in
  if int_truthy size then
    let size := default 0 size in
    if negb (negb (size =? 0) && (Z.land size (size - 1) =? 0)) then
      Raise (ValueError "Size should be a power of 2")
    else if negb ((16 <=? size) && (size <=? 4096)) then
      Raise (ValueError "Size should be between 16 and 4096")
    else
      Ok ((url +:+ "?size=" +:+ pretty size) +:+ extension)
  else Ok (url +:+ extension).

Section Get.
Variable answer : Answer.

Definition get (extension : option string) (size : option Z)
  : M (St Asset) value :=
  this ← self;
  url ← lift (get_url this extension size);
  await answer (request_cdn url).
End Get.

End AssetM.

#[global] Instance result_ret : MRet result := @Ok.
#[global] Instance result_bind : MBind result :=
  fun A B k r => match r with Ok a => k a | Raise e => Raise e end.

(** Runs a step that only concerns the entity, leaving the HTTP log alone. *)
Definition on_self {E A} (m : M E A) : M (St E) A :=
  fun s => let '(r, e) := m s.1 in (r, (e, s.2)).

(** ** emoji.py *)

Module EmojiM.
Import Serializer Snowflake Proxy.

(** Fields declared without a converter hold whatever they are given. *)
Record CustomEmoji : Type := mkCustomEmoji {
  id : option Z;
  name : value;
  animated : value;
  _client : Snake;
  require_colons : value;
  managed : value;
  available : value;
  _creator_id : option Z;
  _role_ids : option (list Z);
  _guild_id : option Z
}.

(** The keyword names of the generated [__init__]: the declared fields of
    [Emoji] and [CustomEmoji], private ones without their underscore. *)
Definition _get_init_keys : list string :=
  ["id"; "name"; "animated"; "client"; "require_colons"; "managed";
   "available"; "creator_id"; "role_ids"; "guild_id"].

(** Modelled from the spec: [_filter_kwargs] of
    [dis_snek/mixins/serialization.py], which is not among the sources.  It
    keeps the entries of a payload whose key belongs to the entity's field
    set and drops the others. *)
Definition _filter_kwargs (data : dict) (keys : list string) : dict :=
  List.filter (fun kv => bool_decide (kv.1 ∈ keys)) data.

Definition kwarg (k : string) (dflt : value) (kwargs : dict) : value :=
  default dflt (dict_get k kwargs).

(** [cls(client=client, **kwargs)]: the generated [__init__] with the
    converters of the field declarations. *)
Definition init (client : Snake) (kwargs : dict) : result CustomEmoji :=
  if dict_contains "client" kwargs then
    Raise (TypeError "got multiple values for keyword argument 'client'")
  else if negb (forallb (fun k => bool_decide (k ∈ _get_init_keys)) (dict_keys kwargs)) then
    Raise (TypeError "__init__() got an unexpected keyword argument")
  else
    i ← optional_to_snowflake (kwarg "id" VNone kwargs);
    c ← optional_to_snowflake (kwarg "creator_id" VNone kwargs);
    r ← optional_list_to_snowflake (kwarg "role_ids" (VList []) kwargs);
    g ← optional_to_snowflake (kwarg "guild_id" VNone kwargs);
    Ok {| id := i;
          name := kwarg "name" VNone kwargs;
          animated := kwarg "animated" (VBool false) kwargs;
          _client := client;
          require_colons := kwarg "require_colons" (VBool false) kwargs;
          managed := kwarg "managed" (VBool false) kwargs;
          available := kwarg "available" (VBool false) kwargs;
          _creator_id := c;
          _role_ids := r;
          _guild_id := g |}.

Section Decode.
(** The client's cache: [place_user_data] stores the user of a payload
    and returns it; only its [id] is read here. *)
Variable Cache : Type.
Variable place_user_data : value -> M Cache Z.

Definition _process_dict (data : dict) : M Cache dict :=
  let '(creator_dict, data) := dict_pop_default "user" data in
  creator_id ← (if truthy creator_dict
                then uid ← place_user_data creator_dict; mret (VInt uid)
                else mret VNone);
  let data := dict_set "creator_id" creator_id data in
  let data :=
    if dict_contains "roles" data
    then let '(roles, data) := dict_pop_default "roles" data in
         dict_set "role_ids" roles data
    else data in
  mret data.

(** The keyword arguments [from_dict] hands to the constructor. *)
Definition from_dict_kwargs (data : dict) : M Cache dict :=
  data ← _process_dict data;
  mret (_filter_kwargs data _get_init_keys).

Definition from_dict (data : dict) (client : Snake) : M Cache CustomEmoji :=
  kwargs ← from_dict_kwargs data;
  lift (init client kwargs).
End Decode.

(** *** Reference accessors *)

Definition creator : M (St CustomEmoji) (option CacheProxy) :=
  this ← self;
  if int_truthy (_creator_id this)
  then mret (Some (mkCacheProxy (_creator_id this) (_client this) get_user))
  else mret None.

Definition roles : M (St CustomEmoji) CacheView :=
  this ← self;
  mret (mkCacheView (_role_ids this) (_client this) get_role).

Definition guild : M (St CustomEmoji) CacheProxy :=
  this ← self;
  mret (mkCacheProxy (_guild_id this) (_client this) get_guild).

Definition is_usable (this : CustomEmoji) : bool :=
  if negb (truthy (available this)) then false else true.

(** *** Mutating operations *)

Section Mutate.
Variable answer : Answer.
(** [update_from_dict] comes from the serialization mixin: it rewrites
    the entity from a payload, or raises. *)
Variable update_from_dict : value -> M CustomEmoji unit.

Definition edit_payload (name roles : option value) : dict :=
  dict_filter_none [("name", param VNone name); ("roles", param VNone roles)].

Definition edit (name roles reason : option value) : M (St CustomEmoji) CustomEmoji :=
  this ← self;
  let data_payload := edit_payload name roles in
  updated_data ← await answer
    (modify_guild_emoji data_payload (_guild_id this) (id this) (param VNone reason));
  _ ← on_self (update_from_dict updated_data);
  self.

Definition delete (reason : option value) : M (St CustomEmoji) unit :=
  this ← self;
  if negb (int_truthy (_guild_id this)) then
    throw (ValueError "Cannot delete emoji, no guild id set.")
  else
    _ ← await answer
      (delete_guild_emoji (_guild_id this) (id this) (param VNone reason));
    mret tt.
End Mutate.

End EmojiM.

(** ** sticker.py *)

Module StickerM.
Import Serializer Proxy.

Inductive StickerTypes : Type := STANDARD | GUILD.
Inductive StickerFormatTypes : Type := PNG | APNG | LOTTIE.

Record Sticker : Type := mkSticker {
  id : Z;
  _client : Snake;
  name : value;
  format_type : StickerFormatTypes;
  pack_id : option Z;
  description : value;
  tags : value;
  type : StickerTypes;
  available : value;
  sort_value : value;
  _user_id : option Z;
  _guild_id : option Z
}.

Definition user : M (St Sticker) (option CacheProxy) :=
  this ← self;
  if int_truthy (_user_id this)
  then mret (Some (mkCacheProxy (_user_id this) (_client this) get_user))
  else mret None.

Definition guild : M (St Sticker) (option CacheProxy) :=
  this ← self;
  if int_truthy (_guild_id this)
  then mret (Some (mkCacheProxy (_guild_id this) (_client this) get_guild))
  else mret None.

Section Mutate.
Variable answer : Answer.
Variable R : Type.
Variable update_from_dict : value -> M Sticker R.

Definition edit_payload (name description tags : option value) : dict :=
  dict_filter_none [("name", param VMissing name);
                    ("description", param VMissing description);
                    ("tags", param VMissing tags)].

Definition edit (name description tags reason : option value) : M (St Sticker) R :=
  this ← self;
  if negb (int_truthy (_guild_id this)) then
    throw (ValueError "You can only edit guild stickers.")
  else
    let payload := edit_payload name description tags in
    sticker_data ← await answer
      (modify_guild_sticker payload (_guild_id this) (id this) (param VMissing reason));
    on_self (update_from_dict sticker_data).

Definition delete (reason : option value) : M (St Sticker) unit :=
  this ← self;
  if negb (int_truthy (_guild_id this)) then
    throw (ValueError "You can only delete guild stickers.")
  else
    _ ← await answer
      (delete_guild_sticker (_guild_id this) (id this) (param VMissing reason));
    mret tt.
End Mutate.

End StickerM.

(** ** scale.py *)

Module ScaleM.

Inductive Command : Type :=
| InteractionCommand (name : string) (scope : Z)
| MessageCommand (name : string).

Definition Listener : Type := string.

(** An object handed to a hook registration, with what
    [asyncio.iscoroutinefunction] answers for it. *)
Record Callable : Type := mkCallable {
  fn : nat;
  iscoroutinefunction : bool
}.

(** The registries of the client a scale registers with. *)
Record Client : Type := mkClient {
  interactions : gmap Z (gmap string Command);
  commands : gmap string Command;
  listeners : list Listener;
  scales : gmap string string
}.

Definition set_interactions (i : gmap Z (gmap string Command)) (bot : Client) : Client :=
  {| interactions := i; commands := commands bot;
     listeners := listeners bot; scales := scales bot |}.
Definition set_commands (c : gmap string Command) (bot : Client) : Client :=
  {| interactions := interactions bot; commands := c;
     listeners := listeners bot; scales := scales bot |}.
Definition set_listeners (l : list Listener) (bot : Client) : Client :=
  {| interactions := interactions bot; commands := commands bot;
     listeners := l; scales := scales bot |}.
Definition set_scales (s : gmap string string) (bot : Client) : Client :=
  {| interactions := interactions bot; commands := commands bot;
     listeners := listeners bot; scales := s |}.

(** A scale.  [__new__] stores the hook lists on the class; an instance
    gets a list of its own only when a registration assigns one.
    [dunder_name] is what the attribute [__name__] gives when read on the
    instance: a class does not hand its [__name__] down to its instances,
    so it is there only if the class body or the instance defines it. *)
Record Scale : Type := mkScale {
  __name : string;
  dunder_name : option string;
  _commands : list Command;
  cls_scale_checks : list Callable;
  cls_scale_prerun : list Callable;
  cls_scale_postrun : list Callable;
  self_scale_checks : option (list Callable);
  self_scale_prerun : option (list Callable);
  self_scale_postrun : option (list Callable)
}.

(** Attribute lookup: the instance first, then the class. *)
Definition scale_checks (s : Scale) : list Callable :=
  default (cls_scale_checks s) (self_scale_checks s).
Definition scale_prerun (s : Scale) : list Callable :=
  default (cls_scale_prerun s) (self_scale_prerun s).
Definition scale_postrun (s : Scale) : list Callable :=
  default (cls_scale_postrun s) (self_scale_postrun s).

Definition name (s : Scale) : string := __name s.

Fixpoint for_each {S A} (f : A -> M S unit) (l : list A) : M S unit :=
  match l with
  | [] => mret tt
  | a :: r => _ ← f a; for_each f r
  end.

(** *** Registration *)

(** Modelled from the spec: [add_interaction] and [add_message_command] of
    the client, which is not among the sources.  A command is stored under
    its name, an interaction command under its scope and then its name;
    the last registration wins. *)
Definition add_interaction (n : string) (sc : Z) : M Client unit :=
  bot ← get_state;
  let inner := default ∅ (interactions bot !! sc) in
  put_state (set_interactions (<[sc := <[n := InteractionCommand n sc]> inner]> (interactions bot)) bot).

Definition add_message_command (n : string) : M Client unit :=
  bot ← get_state;
  put_state (set_commands (<[n := MessageCommand n]> (commands bot)) bot).

(** Modelled from the spec: [add_listener] of the client, which is not
    among the sources; the listener joins the client's collection. *)
Definition add_listener (l : Listener) : M Client unit :=
  bot ← get_state;
  put_state (set_listeners (listeners bot ++ [l])%list bot).

(** What the body of a scale class declares under a name. *)
Inductive ClassAttr : Type :=
| ACommand (c : Command)
| AListener (l : Listener)
| AOther.

Definition register_attr (a : ClassAttr) : M Client unit :=
  match a with
  | ACommand (InteractionCommand n sc) => add_interaction n sc
  | ACommand (MessageCommand n) => add_message_command n
  | AListener l => add_listener l
  | AOther => mret tt
  end.

Definition declared_commands (class_dict : list ClassAttr) : list Command :=
  omap (fun a => match a with ACommand c => Some c | _ => None end) class_dict.

(** [Scale.__new__] for a class named [cls_name] whose body holds
    [class_dict]. *)
Definition new (cls_name : string) (class_dict : list ClassAttr) : M Client Scale :=
  bot ← get_state;
  _ ← put_state (set_scales (<[cls_name := cls_name]> (scales bot)) bot);
  _ ← for_each register_attr class_dict;
  mret {| __name := cls_name;
          dunder_name := None;
          _commands := declared_commands class_dict;
          cls_scale_checks := [];
          cls_scale_prerun := [];
          cls_scale_postrun := [];
          self_scale_checks := None;
          self_scale_prerun := None;
          self_scale_postrun := None |}.

(** *** Shedding *)

Definition nonempty (o : option (gmap string Command)) : bool :=
  match o with
  | Some d => negb (bool_decide (d = ∅))
  | None => false
  end.

(** One turn of the loop of [shed].  A command object is true, so
    [d.get(name)] is true exactly when the name is in [d]; the interaction
    branch asks with [get], the message branch with a subscript, which
    raises [KeyError] for a name that is not there. *)
Definition shed_command (cmd : Command) : M Client unit :=
  _ ← match cmd with
      | InteractionCommand n sc =>
          bot ← get_state;
          if nonempty (interactions bot !! sc)
             && bool_decide (is_Some (default ∅ (interactions bot !! sc) !! n))
          then
            put_state (set_interactions
                         (<[sc := delete n (default ∅ (interactions bot !! sc))]>
                            (interactions bot)) bot)
          else mret tt
      | MessageCommand _ => mret tt
      end;
  match cmd with
  | MessageCommand n =>
      bot ← get_state;
      match commands bot !! n with
      | None => throw (KeyError n)
      | Some _ => put_state (set_commands (delete n (commands bot)) bot)
      end
  | InteractionCommand _ _ => mret tt
  end.

Definition shed (this : Scale) : M Client unit :=
  _ ← for_each shed_command (_commands this);
  match dunder_name this with
  | None => throw (AttributeError "__name__")
  | Some n =>
      bot ← get_state;
      match scales bot !! n with
      | None => throw (KeyError n)
      | Some _ => put_state (set_scales (delete n (scales bot)) bot)
      end
  end.

(** *** Hooks *)

Definition set_self_checks (l : option (list Callable)) (s : Scale) : Scale :=
  {| __name := __name s; dunder_name := dunder_name s; _commands := _commands s;
     cls_scale_checks := cls_scale_checks s; cls_scale_prerun := cls_scale_prerun s;
     cls_scale_postrun := cls_scale_postrun s;
     self_scale_checks := l; self_scale_prerun := self_scale_prerun s;
     self_scale_postrun := self_scale_postrun s |}.
Definition set_self_prerun (l : option (list Callable)) (s : Scale) : Scale :=
  {| __name := __name s; dunder_name := dunder_name s; _commands := _commands s;
     cls_scale_checks := cls_scale_checks s; cls_scale_prerun := cls_scale_prerun s;
     cls_scale_postrun := cls_scale_postrun s;
     self_scale_checks := self_scale_checks s; self_scale_prerun := l;
     self_scale_postrun := self_scale_postrun s |}.
Definition set_self_postrun (l : option (list Callable)) (s : Scale) : Scale :=
  {| __name := __name s; dunder_name := dunder_name s; _commands := _commands s;
     cls_scale_checks := cls_scale_checks s; cls_scale_prerun := cls_scale_prerun s;
     cls_scale_postrun := cls_scale_postrun s;
     self_scale_checks := self_scale_checks s; self_scale_prerun := self_scale_prerun s;
     self_scale_postrun := l |}.
Definition set_cls_checks (l : list Callable) (s : Scale) : Scale :=
  {| __name := __name s; dunder_name := dunder_name s; _commands := _commands s;
     cls_scale_checks := l; cls_scale_prerun := cls_scale_prerun s;
     cls_scale_postrun := cls_scale_postrun s;
     self_scale_checks := self_scale_checks s; self_scale_prerun := self_scale_prerun s;
     self_scale_postrun := self_scale_postrun s |}.
Definition set_cls_prerun (l : list Callable) (s : Scale) : Scale :=
  {| __name := __name s; dunder_name := dunder_name s; _commands := _commands s;
     cls_scale_checks := cls_scale_checks s; cls_scale_prerun := l;
     cls_scale_postrun := cls_scale_postrun s;
     self_scale_checks := self_scale_checks s; self_scale_prerun := self_scale_prerun s;
     self_scale_postrun := self_scale_postrun s |}.
Definition set_cls_postrun (l : list Callable) (s : Scale) : Scale :=
  {| __name := __name s; dunder_name := dunder_name s; _commands := _commands s;
     cls_scale_checks := cls_scale_checks s; cls_scale_prerun := cls_scale_prerun s;
     cls_scale_postrun := l;
     self_scale_checks := self_scale_checks s; self_scale_prerun := self_scale_prerun s;
     self_scale_postrun := self_scale_postrun s |}.

(** [self.<hooks>.append(coroutine)]: the list that the attribute lookup
    finds is the one that grows, the instance's own or the class's. *)
Definition append_checks (c : Callable) (s : Scale) : Scale :=
  match self_scale_checks s with
  | Some l => set_self_checks (Some (l ++ [c])%list) s
  | None => set_cls_checks (cls_scale_checks s ++ [c])%list s
  end.
Definition append_prerun (c : Callable) (s : Scale) : Scale :=
  match self_scale_prerun s with
  | Some l => set_self_prerun (Some (l ++ [c])%list) s
  | None => set_cls_prerun (cls_scale_prerun s ++ [c])%list s
  end.
Definition append_postrun (c : Callable) (s : Scale) : Scale :=
  match self_scale_postrun s with
  | Some l => set_self_postrun (Some (l ++ [c])%list) s
  | None => set_cls_postrun (cls_scale_postrun s ++ [c])%list s
  end.

Definition is_empty (l : list Callable) : bool :=
  match l with [] => true | _ => false end.

Definition add_scale_check (coroutine : Callable) : M Scale unit :=
  if negb (iscoroutinefunction coroutine) then
    throw (TypeError "Check must be a coroutine")
  else
    this ← get_state;
    _ ← (if is_empty (scale_checks this)
         then put_state (set_self_checks (Some []) this)
         else mret tt);
    this ← get_state;
    put_state (append_checks coroutine this).

Definition add_scale_prerun (coroutine : Callable) : M Scale unit :=
  if negb (iscoroutinefunction coroutine) then
    throw (TypeError "Callback must be a coroutine")
  else
    this ← get_state;
    _ ← (if is_empty (scale_prerun this)
         then put_state (set_self_prerun (Some []) this)
         else mret tt);
    this ← get_state;
    put_state (append_prerun coroutine this).

Definition add_scale_postrun (coroutine : Callable) : M Scale unit :=
  if negb (iscoroutinefunction coroutine) then
    throw (TypeError "Callback must be a coroutine")
  else
    this ← get_state;
    _ ← (if is_empty (scale_postrun this)
         then put_state (set_self_postrun (Some []) this)
         else mret tt);
    this ← get_state;
    put_state (append_postrun coroutine this).

End ScaleM.

(** ** emoji.py: the base class and the request helpers *)

Module EmojiOps.

(** [str(v)] for the values whose text does not depend on [repr]; [None]
    for the others (lists, dictionaries, the sentinel). *)
Definition py_str (v : value) : option string :=
  match v with
  | VNone => Some "None"
  | VBool true => Some "True"
  | VBool false => Some "False"
  | VInt z => Some (pretty z)
  | VStr s => Some s
  | _ => None
  end.

(** [str] of an [Optional[Snowflake]]. *)
Definition id_str (o : option Z) : string :=
  match o with Some z => pretty z | None => "None" end.

Record Emoji : Type := mkEmoji {
  id : option Z;
  name : value;
  animated : value
}.

(** A custom emoji seen as an emoji. *)
Definition of_custom (e : EmojiM.CustomEmoji) : Emoji :=
  {| id := EmojiM.id e; name := EmojiM.name e; animated := EmojiM.animated e |}.

(** [Emoji.unicode(emoji)]: the other fields keep their defaults. *)
Definition unicode (emoji : string) : Emoji :=
  {| id := None; name := VStr emoji; animated := VBool false |}.

(** [Emoji.__str__]; [None] when the name has no modelled text. *)
Definition to_str (this : Emoji) : option string :=
  n ← py_str (name this);
  Some ("<" +:+ (if truthy (animated this) then "a:" else "")
            +:+ n +:+ ":" +:+ id_str (id this) +:+ ">").

(** [Emoji.req_format]: a string built from name and id, or the name
    itself, whatever it is, when there is no id. *)
Definition req_format (this : Emoji) : option value :=
  if int_truthy (id this) then
    n ← py_str (name this);
    Some (VStr (n +:+ ":" +:+ id_str (id this)))
  else Some (name this).

(** What the request helpers are given: a plain value, or an emoji. *)
Inductive EmojiArg : Type :=
| AValue (v : value)
| AEmoji (e : Emoji).

Definition arg_truthy (a : EmojiArg) : bool :=
  match a with AValue v => truthy v | AEmoji _ => true end.

Section Process.
(** [Emoji.from_dict] and [to_dict] come from the serialization mixin. *)
Variable from_dict : dict -> result Emoji.
Variable to_dict : Emoji -> dict.

(** The result is a value, or the argument handed back as it came.
    [None] when the text of the error message is outside [py_str]. *)
Definition process_emoji_req_format (emoji : EmojiArg) : option (result EmojiArg) :=
  if negb (arg_truthy emoji) then Some (Ok emoji)
  else match emoji with
       | AValue (VStr _) => Some (Ok emoji)
       | AValue (VDict d) =>
           match from_dict d with
           | Ok e => v ← req_format e; Some (Ok (AValue v))
           | Raise x => Some (Raise x)
           end
       | AEmoji e => v ← req_format e; Some (Ok (AValue v))
       | AValue v => s ← py_str v; Some (Raise (ValueError ("Invalid emoji: " +:+ s)))
       end.

Definition process_emoji (emoji : EmojiArg) : option (result EmojiArg) :=
  if negb (arg_truthy emoji) then Some (Ok emoji)
  else match emoji with
       | AValue (VDict _) => Some (Ok emoji)
       | AValue (VStr s) => Some (Ok (AValue (VDict (to_dict (unicode s)))))
       | AEmoji e => Some (Ok (AValue (VDict (to_dict e))))
       | AValue v => s ← py_str v; Some (Raise (ValueError ("Invalid emoji: " +:+ s)))
       end.
End Process.

End EmojiOps.

(** ** utils/misc_utils.py *)

Module MiscUtils.


(** Strings are taken as their UTF-8 bytes.  Every character of
    [mention_reg] is ASCII, and no byte of a longer UTF-8 sequence is, so
    the pattern matches the bytes where it matches the text. *)
Definition at_sign : ascii := "@"%char.

(** U+200B, the zero-width space the replacement puts after the [@]. *)
Definition ZWSP : string :=
  String (ascii_of_nat 226) (String (ascii_of_nat 128) (String (ascii_of_nat 139) EmptyString)).

Definition is_digit (c : ascii) : bool :=
  (48 <=? nat_of_ascii c)%nat && (nat_of_ascii c <=? 57)%nat.

Fixpoint leading_digits (s : string) : nat :=
  match s with
  | String c r => if is_digit c then S (leading_digits r) else O
  | EmptyString => O
  end.

(** [[0-9]{17,20}], greedy: the number of digits it takes, if it matches. *)
Definition digits_17_20 (s : string) : option nat :=
  if (17 <=? leading_digits s)%nat then Some (Nat.min 20 (leading_digits s)) else None.

(** The group [(everyone|here|[!&]?[0-9]{17,20})] tried at the start of
    [s], alternatives in order: the length of what it matches. *)
Definition mention_group (s : string) : option nat :=
  if String.prefix "everyone" s then Some 8%nat
  else if String.prefix "here" s then Some 4%nat
  else match s with
       | String c r =>
           if Ascii.eqb c "!"%char || Ascii.eqb c "&"%char
           then S <$> digits_17_20 r
           else digits_17_20 s
       | EmptyString => None
       end.

(** [mention_reg.sub]: the text is scanned from the left; [skip] counts the
    characters of the current match still to be copied, where no new match
    is looked for. *)
Fixpoint sub_go (skip : nat) (s : string) : string :=
  match s with
  | EmptyString => EmptyString
  | String c r =>
      match skip with
      | S k => String c (sub_go k r)
      | O =>
          if Ascii.eqb c at_sign then
            match mention_group r with
            | Some len => String c (ZWSP +:+ sub_go len r)
            | None => String c (sub_go O r)
            end
          else String c (sub_go O r)
      end
  end.

Definition escape_mentions (content : string) : string := sub_go O content.

End MiscUtils.

(** * Vocabulary of the properties *)

(** A size the CDN accepts: a power of two between 16 and 4096. *)
Definition valid_size (size : Z) : Prop :=
  (exists k, 0 <= k /\ size = 2 ^ k) /\ 16 <= size <= 4096.

(** Reading an accessor [n] times in a row and collecting what it gave. *)
Fixpoint reads {S A} (n : nat) (m : M S A) : M S (list A) :=
  match n with
  | O => mret []
  | S n' => a ← m; r ← reads n' m; mret (a :: r)
  end.

(** A guild sticker, as the examples below use it. *)
Definition a_sticker : StickerM.Sticker :=
  {| StickerM.id := 7; StickerM._client := SnakeRef 0;
     StickerM.name := VStr "wave"; StickerM.format_type := StickerM.PNG;
     StickerM.pack_id := None; StickerM.description := VStr "a wave";
     StickerM.tags := VStr "hello"; StickerM.type := StickerM.GUILD;
     StickerM.available := VBool true; StickerM.sort_value := VNone;
     StickerM._user_id := Some 3; StickerM._guild_id := Some 1 |}.

(** What each accessor hands out for a given entity. *)
Definition creator_handle (e : EmojiM.CustomEmoji) : option Proxy.CacheProxy :=
  if int_truthy (EmojiM._creator_id e)
  then Some (Proxy.mkCacheProxy (EmojiM._creator_id e) (EmojiM._client e) Proxy.get_user)
  else None.

Definition user_handle (s : StickerM.Sticker) : option Proxy.CacheProxy :=
  if int_truthy (StickerM._user_id s)
  then Some (Proxy.mkCacheProxy (StickerM._user_id s) (StickerM._client s) Proxy.get_user)
  else None.

Definition sticker_guild_handle (s : StickerM.Sticker) : option Proxy.CacheProxy :=
  if int_truthy (StickerM._guild_id s)
  then Some (Proxy.mkCacheProxy (StickerM._guild_id s) (StickerM._client s) Proxy.get_guild)
  else None.

(** The dictionary [_process_dict] returns, given the stored creator value. *)
Definition processed (creator_id : value) (data : dict) : dict :=
  let data := dict_set "creator_id" creator_id (dict_remove "user" data) in
  if dict_contains "roles" data
  then dict_set "role_ids" (default VNone (dict_get "roles" data))
         (dict_remove "roles" data)
  else data.

(** A payload as the gateway sends it, and a cache that files every user
    under the identifier [42]. *)
Definition emoji_payload : dict :=
  [("id", VStr "623335224318754826"); ("name", VStr "thinksmart");
   ("user", VDict [("id", VStr "42"); ("username", VStr "snek")]);
   ("roles", VList [VInt 5; VStr "6"]); ("version", VInt 1)].

Definition filing_cache : value -> M (list value) Z :=
  fun v c => (Ok 42, v :: c).

Definition empty_client : ScaleM.Client :=
  {| ScaleM.interactions := ∅; ScaleM.commands := ∅;
     ScaleM.listeners := []; ScaleM.scales := ∅ |}.

(** The body of a scale class [PingScale] with one message command and one
    listener. *)
Definition ping_class : list ScaleM.ClassAttr :=
  [ScaleM.ACommand (ScaleM.MessageCommand "ping"); ScaleM.AListener "on_ready"].

Definition ping_scale : ScaleM.Scale :=
  {| ScaleM.__name := "PingScale"; ScaleM.dunder_name := None;
     ScaleM._commands := [ScaleM.MessageCommand "ping"];
     ScaleM.cls_scale_checks := []; ScaleM.cls_scale_prerun := [];
     ScaleM.cls_scale_postrun := [];
     ScaleM.self_scale_checks := None; ScaleM.self_scale_prerun := None;
     ScaleM.self_scale_postrun := None |}.

(** The sizes [get] lets through. *)
Definition accepted_sizes : list Z := [16; 32; 64; 128; 256; 512; 1024; 2048; 4096].

(** No brace in a piece of a path template. *)
Fixpoint brace_free (s : string) : bool :=
  match s with
  | EmptyString => true
  | String c r => negb (Ascii.eqb c "{"%char) && negb (Ascii.eqb c "}"%char) && brace_free r
  end.

(** The names of the message commands among a scale's commands. *)
Definition message_names (cmds : list ScaleM.Command) : list string :=
  omap (fun c => match c with
                 | ScaleM.MessageCommand n => Some n
                 | ScaleM.InteractionCommand _ _ => None
                 end) cmds.

(** What the client's interaction table holds under a scope and a name. *)
Definition interaction_at (bot : ScaleM.Client) (sc : Z) (n : string)
  : option ScaleM.Command :=
  match ScaleM.interactions bot !! sc with
  | Some d => d !! n
  | None => None
  end.

(** What the client's tables hold for a command: looked up by name, and by
    scope for an interaction command. *)
Definition table_entry (bot : ScaleM.Client) (cmd : ScaleM.Command)
  : option ScaleM.Command :=
  match cmd with
  | ScaleM.MessageCommand n => ScaleM.commands bot !! n
  | ScaleM.InteractionCommand n sc => interaction_at bot sc n
  end.

#[global] Instance command_eq_dec : EqDecision ScaleM.Command.
Proof. solve_decision. Defined.

(** [mention_reg.search]: some [@] of the text is followed by a match of the
    group. *)
Fixpoint has_mention (s : string) : bool :=
  match s with
  | EmptyString => false
  | String c r =>
      (Ascii.eqb c MiscUtils.at_sign && bool_decide (is_Some (MiscUtils.mention_group r)))
      || has_mention r
  end.

(** The number of places where [mention_reg] matches. *)
Fixpoint count_mentions (s : string) : nat :=
  match s with
  | EmptyString => O
  | String c r =>
      ((if Ascii.eqb c MiscUtils.at_sign && bool_decide (is_Some (MiscUtils.mention_group r))
        then 1 else 0) + count_mentions r)%nat
  end.

(** No [@] among the first [k] characters. *)
Fixpoint no_at (k : nat) (s : string) : bool :=
  match k, s with
  | S k', String c r => negb (Ascii.eqb c MiscUtils.at_sign) && no_at k' r
  | _, _ => true
  end.

(** The substitution read one character at a time: a zero-width space goes
    in after every [@] that starts a match.  It is what [sub_go] computes,
    as a match holds no [@] to start another one at. *)
Fixpoint sub_each (s : string) : string :=
  match s with
  | EmptyString => EmptyString
  | String c r =>
      if Ascii.eqb c MiscUtils.at_sign && bool_decide (is_Some (MiscUtils.mention_group r))
      then String c (MiscUtils.ZWSP +:+ sub_each r)
      else String c (sub_each r)
  end.

(** * Properties *)

(** ** Helper lemmas *)

Lemma land_pred_pow2 (k : Z) : 0 <= k -> Z.land (2 ^ k) (2 ^ k - 1) = 0.
Proof.
  intros Hk.
  replace (2 ^ k - 1) with (Z.ones k) by (rewrite Z.ones_equiv; lia).
  rewrite Z.land_ones by lia.
  apply Z.mod_same. lia.
Qed.

Lemma land_pred_zero_pow2 (z : Z) :
  0 < z -> Z.land z (z - 1) = 0 -> z = 2 ^ Z.log2 z.
Proof.
  intros Hz Hland.
  destruct (Z.log2_spec z Hz) as [Hlo Hhi].
  destruct (decide (z = 2 ^ Z.log2 z)) as [|Hne]; [done|].
  exfalso.
  assert (Hlog : Z.log2 (z - 1) = Z.log2 z).
  { apply Z.log2_unique; [apply Z.log2_nonneg | lia]. }
  assert (Hb1 : Z.testbit z (Z.log2 z) = true) by (apply Z.bit_log2; lia).
  assert (Hb2 : Z.testbit (z - 1) (Z.log2 z) = true).
  { rewrite <- Hlog. apply Z.bit_log2.
    pose proof (Z.pow_pos_nonneg 2 (Z.log2 z) ltac:(lia) (Z.log2_nonneg z)). lia. }
  assert (Hb : Z.testbit (Z.land z (z - 1)) (Z.log2 z) = true).
  { rewrite Z.land_spec, Hb1, Hb2. reflexivity. }
  rewrite Hland, Z.bits_0 in Hb. discriminate.
Qed.

(** [size & (size - 1) == 0] holds for a non-zero Python integer exactly
    when it is a power of two. *)
Lemma land_pred_iff_pow2 (z : Z) :
  z <> 0 -> (Z.land z (z - 1) = 0 <-> exists k, 0 <= k /\ z = 2 ^ k).
Proof.
  intros Hz. split.
  - intros Hland.
    destruct (Z.lt_trichotomy z 0) as [Hneg | [? | Hpos]]; [|lia|].
    + assert (Z.land z (z - 1) < 0) by (apply Z.land_neg; lia). lia.
    + exists (Z.log2 z). split; [apply Z.log2_nonneg | by apply land_pred_zero_pow2].
  - intros (k & Hk & ->). by apply land_pred_pow2.
Qed.

Lemma get_url_valid (a : AssetM.Asset) (extension : option string) (size : Z) :
  valid_size size ->
  AssetM.get_url a extension (Some size)
  = Ok ((AssetM.url a +:+ "?size=" +:+ pretty size)
          +:+ AssetM.default_extension a extension).
Proof.
  intros [Hpow [Hlo Hhi]].
  assert (Hz : size <> 0) by lia.
  apply (land_pred_iff_pow2 size Hz) in Hpow.
  unfold AssetM.get_url. cbn [int_truthy default from_option id].
  destruct (Z.eqb_spec size 0) as [|_]; [lia|]. cbn [negb].
  rewrite Hpow. cbn [Z.eqb andb negb].
  destruct (Z.leb_spec 16 size); [|lia].
  destruct (Z.leb_spec size 4096); [|lia].
  reflexivity.
Qed.

Lemma get_url_invalid (a : AssetM.Asset) (extension : option string) (size : Z) :
  size <> 0 -> ~ valid_size size ->
  exists msg, AssetM.get_url a extension (Some size) = Raise (ValueError msg).
Proof.
  intros Hz Hbad.
  unfold AssetM.get_url. cbn [int_truthy default from_option id].
  destruct (Z.eqb_spec size 0) as [|_]; [lia|]. cbn [negb andb].
  destruct (Z.eqb_spec (Z.land size (size - 1)) 0) as [Hland|Hland]; cbn [negb].
  - apply (land_pred_iff_pow2 size Hz) in Hland.
    destruct (Z.leb_spec 16 size); cbn [andb negb]; [|eauto].
    destruct (Z.leb_spec size 4096); cbn [negb]; [|eauto].
    exfalso. apply Hbad. split; [done | lia].
  - eauto.
Qed.

(** ** Assets *)

Lemma default_extension_unset (a : AssetM.Asset) (extension : option string) :
  str_truthy extension = false ->
  AssetM.default_extension a extension
  = if bool_truthy (AssetM.animated a) then ".gif" else ".png".
Proof. intros H. unfold AssetM.default_extension. by rewrite H. Qed.

Lemma from_path_hash_hash client path asset_hash a :
  AssetM.from_path_hash client path asset_hash = Some a ->
  AssetM.hash a = Some asset_hash.
Proof.
  unfold AssetM.from_path_hash. intros H.
  destruct (format1 path asset_hash); simplify_eq/=. reflexivity.
Qed.

Lemma animated_prefix (a : AssetM.Asset) (h : string) :
  AssetM.hash a = Some h -> String.prefix "a_" h = true ->
  AssetM.animated a = Some true.
Proof.
  intros Hh Hp. unfold AssetM.animated. rewrite Hh.
  destruct h as [|c h]; [discriminate|].
  cbn [str_truthy String.eqb negb]. by rewrite Hp.
Qed.

Lemma animated_no_prefix (a : AssetM.Asset) (h : string) :
  AssetM.hash a = Some h -> String.prefix "a_" h = false ->
  bool_truthy (AssetM.animated a) = false.
Proof.
  intros Hh Hp. unfold AssetM.animated. rewrite Hh.
  destruct h as [|c h]; [reflexivity|].
  cbn [str_truthy String.eqb negb]. by rewrite Hp.
Qed.

(** C3.  An asset built by [from_path_hash] from a hash that starts with
    ["a_"] is animated and [get] without an extension asks for [".gif"];
    with any other hash it asks for [".png"].  When a size is given the
    requested URL is the asset's URL, then ["?size=<size>"], then the
    extension. *)
Theorem asset_url_construction
    (client : Snake) (path asset_hash : string) (a : AssetM.Asset) :
  AssetM.from_path_hash client path asset_hash = Some a ->
  (String.prefix "a_" asset_hash = true ->
     AssetM.animated a = Some true /\
     AssetM.get_url a None None = Ok (AssetM.url a +:+ ".gif") /\
     forall size, valid_size size ->
       AssetM.get_url a None (Some size)
       = Ok ((AssetM.url a +:+ "?size=" +:+ pretty size) +:+ ".gif")) /\
  (String.prefix "a_" asset_hash = false ->
     AssetM.get_url a None None = Ok (AssetM.url a +:+ ".png") /\
     forall size, valid_size size ->
       AssetM.get_url a None (Some size)
       = Ok ((AssetM.url a +:+ "?size=" +:+ pretty size) +:+ ".png")).
Proof.
  intros Hnew. apply from_path_hash_hash in Hnew as Hh.
  split; intros Hp.
  - pose proof (animated_prefix a asset_hash Hh Hp) as Han.
    split; [done|]. split.
    + unfold AssetM.get_url, AssetM.default_extension. cbn. by rewrite Han.
    + intros size Hv. rewrite get_url_valid by done.
      rewrite default_extension_unset by done. by rewrite Han.
  - pose proof (animated_no_prefix a asset_hash Hh Hp) as Han.
    split.
    + unfold AssetM.get_url, AssetM.default_extension. cbn. by rewrite Han.
    + intros size Hv. rewrite get_url_valid by done.
      rewrite default_extension_unset by done. by rewrite Han.
Qed.

Lemma valid_size_32 : valid_size 32.
Proof. split; [exists 5; split; [lia | reflexivity] | lia]. Qed.

(** The asset of the example: [Asset.from_path_hash(client, "icons/{}.png",
    "a_1234")], animated, requested with [size=32]. *)
Lemma asset_url_construction_witness :
  let a := {| AssetM._client := SnakeRef 0;
              AssetM.url := "https://cdn.discordapp.com/icons/a_1234.png";
              AssetM.hash := Some "a_1234" |} in
  AssetM.animated a = Some true /\
  AssetM.get_url a None (Some 32)
  = Ok "https://cdn.discordapp.com/icons/a_1234.png?size=32.gif".
Proof.
  intros a.
  destruct (asset_url_construction (SnakeRef 0) "icons/{}.png" "a_1234" a
              ltac:(reflexivity)) as [Hanim _].
  destruct (Hanim ltac:(reflexivity)) as (Ha & _ & Hsize).
  split; [exact Ha | exact (Hsize 32 valid_size_32)].
Defined.

(** C4, as the code has it.  For a size other than zero, the validation of
    [get] raises [ValueError] exactly when the size is not a power of two
    between 16 and 4096; it does so before any request is made, and for a
    valid size the request goes out with ["?size=<size>"] in its URL.  A
    size of [17] is refused. *)
Theorem asset_get_size_validation
    (answer : Answer) (a : AssetM.Asset) (extension : option string)
    (size : Z) (h : Http) :
  size <> 0 ->
  (raises (AssetM.get_url a extension (Some size)) <-> ~ valid_size size) /\
  (~ valid_size size ->
     exists msg, AssetM.get answer extension (Some size) (a, h)
                 = (Raise (ValueError msg), (a, h))) /\
  (valid_size size ->
     let u := (AssetM.url a +:+ "?size=" +:+ pretty size)
                +:+ AssetM.default_extension a extension in
     AssetM.get answer extension (Some size) (a, h)
     = (answer h (request_cdn u), (a, (h ++ [request_cdn u])%list))).
Proof.
  intros Hz. split; [split|split].
  - intros [e He] Hv. rewrite get_url_valid in He by done. discriminate.
  - intros Hbad. destruct (get_url_invalid a extension size Hz Hbad) as [msg Hm].
    exists (ValueError msg). exact Hm.
  - intros Hbad. destruct (get_url_invalid a extension size Hz Hbad) as [msg Hm].
    exists msg. unfold AssetM.get, mbind, M_bind, bind, self, lift. cbn.
    by rewrite Hm.
  - intros Hv u. unfold AssetM.get, mbind, M_bind, bind, self, lift, await. cbn.
    by rewrite get_url_valid.
Qed.

Lemma not_valid_size_17 : ~ valid_size 17.
Proof.
  intros [(k & Hk & Heq) _].
  assert (k < 5) by (apply (Z.pow_lt_mono_r_iff 2); lia).
  assert (4 < k) by (apply (Z.pow_lt_mono_r_iff 2); lia).
  lia.
Qed.

Lemma asset_get_size_validation_witness :
  exists msg,
    AssetM.get (fun _ _ => Ok VNone) None (Some 17)
      ({| AssetM._client := SnakeRef 0;
          AssetM.url := "https://cdn.discordapp.com/icons/a_1234.png";
          AssetM.hash := Some "a_1234" |}, [])
    = (Raise (ValueError msg),
       ({| AssetM._client := SnakeRef 0;
           AssetM.url := "https://cdn.discordapp.com/icons/a_1234.png";
           AssetM.hash := Some "a_1234" |}, [])).
Proof.
  destruct (asset_get_size_validation (fun _ _ => Ok VNone)
              {| AssetM._client := SnakeRef 0;
                 AssetM.url := "https://cdn.discordapp.com/icons/a_1234.png";
                 AssetM.hash := Some "a_1234" |} None 17 [] ltac:(lia))
    as (_ & Hbad & _).
  exact (Hbad not_valid_size_17).
Defined.

(** C4 as stated fails at [size=0]: zero is not a power of two and lies
    outside the range, but [if size:] skips the validation and the request
    goes out without a size. *)
Lemma asset_get_size_zero_not_refused :
  ~ (forall (a : AssetM.Asset) (extension : option string) (size : Z),
       raises (AssetM.get_url a extension (Some size)) <-> ~ valid_size size).
Proof.
  intros H.
  destruct (H {| AssetM._client := SnakeRef 0; AssetM.url := "u";
                 AssetM.hash := None |} None 0) as [_ Hraise].
  destruct Hraise as [e He]; [|discriminate He].
  intros [_ [Hlo _]]. lia.
Qed.

(** C10.  With no hash, or an empty one, [animated] is [None] and not a
    boolean; [get] without an extension then asks for [".png"]. *)
Theorem asset_animated_none
    (answer : Answer) (a : AssetM.Asset) (h : Http) :
  AssetM.hash a = None \/ AssetM.hash a = Some "" ->
  AssetM.animated a = None /\
  (forall extension, str_truthy extension = false ->
     AssetM.default_extension a extension = ".png") /\
  AssetM.get answer None None (a, h)
  = (answer h (request_cdn (AssetM.url a +:+ ".png")),
     (a, (h ++ [request_cdn (AssetM.url a +:+ ".png")])%list)).
Proof.
  intros Hh.
  assert (Han : AssetM.animated a = None).
  { unfold AssetM.animated. by destruct Hh as [-> | ->]. }
  split; [done|]. split.
  - intros extension He. rewrite default_extension_unset by done. by rewrite Han.
  - unfold AssetM.get, AssetM.get_url, AssetM.default_extension,
      mbind, M_bind, bind, self, lift, await. cbn. by rewrite Han.
Qed.

Lemma asset_animated_none_witness :
  AssetM.animated {| AssetM._client := SnakeRef 0; AssetM.url := "u";
                     AssetM.hash := Some "" |} = None.
Proof.
  exact (proj1 (asset_animated_none (fun _ _ => Ok VNone)
                  {| AssetM._client := SnakeRef 0; AssetM.url := "u";
                     AssetM.hash := Some "" |} [] (or_intror eq_refl))).
Defined.

(** ** Partial-update payloads *)

Section Edit.
Variable answer : Answer.

(** [CustomEmoji.edit] sends exactly the fields given a value other than
    [None]: a field left out is not a key of the payload. *)
Lemma custom_emoji_edit_payload_keys (name roles : option value) (k : string) :
  dict_contains k (EmojiM.edit_payload name roles) = true <->
  (k = "name" /\ is_none (param VNone name) = false) \/
  (k = "roles" /\ is_none (param VNone roles) = false).
Proof.
  unfold EmojiM.edit_payload, Serializer.dict_filter_none, dict_contains.
  cbn [List.filter snd].
  destruct (is_none (param VNone name)), (is_none (param VNone roles));
    cbn [negb dict_get];
    repeat match goal with
           | |- context [String.eqb ?a ?b] => destruct (String.eqb_spec a b)
           end; subst; split; intros H; try discriminate; try tauto;
    try (destruct H as [[? ?] | [? ?]]; congruence).
Qed.

Lemma custom_emoji_edit_only_name (v : value) :
  v <> VNone -> EmojiM.edit_payload (Some v) None = [("name", v)].
Proof. intros Hv. by destruct v. Qed.

Lemma custom_emoji_edit_call
    (update_from_dict : value -> M EmojiM.CustomEmoji unit)
    (name roles reason : option value) (e : EmojiM.CustomEmoji) (h : Http) :
  (EmojiM.edit answer update_from_dict name roles reason (e, h)).2.2
  = (h ++ [modify_guild_emoji (EmojiM.edit_payload name roles)
             (EmojiM._guild_id e) (EmojiM.id e) (param VNone reason)])%list.
Proof.
  unfold EmojiM.edit, mbind, M_bind, bind, self, await, on_self. cbn.
  destruct (answer h _); [|reflexivity].
  destruct (update_from_dict a e) as [[]]; reflexivity.
Qed.
End Edit.

(** C1.  [Sticker.edit] called with only [name]: the parameters left out
    hold [MISSING], which [dict_filter_none] does not drop, so the payload
    sent to the HTTP layer has the keys [description] and [tags] as well. *)
Theorem sticker_edit_only_name_payload
    (answer : Answer) (R : Type) (update_from_dict : value -> M StickerM.Sticker R)
    (h : Http) :
  StickerM.edit_payload (Some (VStr "wave2")) None None
  = [("name", VStr "wave2"); ("description", VMissing); ("tags", VMissing)] /\
  (StickerM.edit answer R update_from_dict (Some (VStr "wave2")) None None None
     (a_sticker, h)).2.2
  = (h ++ [modify_guild_sticker
             [("name", VStr "wave2"); ("description", VMissing); ("tags", VMissing)]
             (Some 1) 7 VMissing])%list /\
  dict_contains "description" (StickerM.edit_payload (Some (VStr "wave2")) None None)
  = true /\
  dict_contains "tags" (StickerM.edit_payload (Some (VStr "wave2")) None None) = true.
Proof.
  split; [reflexivity|]. split; [|split; reflexivity].
  unfold StickerM.edit, mbind, M_bind, bind, self, await, on_self. cbn.
  destruct (answer h _); [|reflexivity].
  destruct (update_from_dict a a_sticker) as [[]]; reflexivity.
Qed.

(** ** Deleting a guild-scoped entity *)

Lemma int_truthy_unset (o : option Z) :
  o = None \/ o = Some 0 -> int_truthy o = false.
Proof. by intros [-> | ->]. Qed.

Lemma int_truthy_set (g : Z) : g <> 0 -> int_truthy (Some g) = true.
Proof. intros Hg. cbn. by destruct (Z.eqb_spec g 0). Qed.

(** C5.  [delete] on a custom emoji or a sticker whose guild identifier is
    not set ([None], or the zero that Python also counts as false) raises
    [ValueError] and the HTTP layer is not called; with a guild identifier
    set, exactly one delete call is made and its outcome is the outcome of
    [delete]. *)
Theorem delete_requires_guild (answer : Answer) (reason : option value) (h : Http) :
  (forall e : EmojiM.CustomEmoji,
     (EmojiM._guild_id e = None \/ EmojiM._guild_id e = Some 0 ->
        EmojiM.delete answer reason (e, h)
        = (Raise (ValueError "Cannot delete emoji, no guild id set."), (e, h))) /\
     (forall g, EmojiM._guild_id e = Some g -> g <> 0 ->
        let c := delete_guild_emoji (Some g) (EmojiM.id e) (param VNone reason) in
        EmojiM.delete answer reason (e, h)
        = (match answer h c with Ok _ => Ok tt | Raise x => Raise x end,
           (e, (h ++ [c])%list)))) /\
  (forall s : StickerM.Sticker,
     (StickerM._guild_id s = None \/ StickerM._guild_id s = Some 0 ->
        StickerM.delete answer reason (s, h)
        = (Raise (ValueError "You can only delete guild stickers."), (s, h))) /\
     (forall g, StickerM._guild_id s = Some g -> g <> 0 ->
        let c := delete_guild_sticker (Some g) (StickerM.id s) (param VMissing reason) in
        StickerM.delete answer reason (s, h)
        = (match answer h c with Ok _ => Ok tt | Raise x => Raise x end,
           (s, (h ++ [c])%list)))).
Proof.
  split; intros e; split.
  - intros Hg. unfold EmojiM.delete, mbind, M_bind, bind, self. cbn.
    by rewrite (int_truthy_unset _ Hg).
  - intros g Hg Hne c. unfold EmojiM.delete, mbind, M_bind, bind, self, await. cbn.
    rewrite Hg, (int_truthy_set g Hne). cbn. subst c.
    by destruct (answer h _).
  - intros Hg. unfold StickerM.delete, mbind, M_bind, bind, self. cbn.
    by rewrite (int_truthy_unset _ Hg).
  - intros g Hg Hne c. unfold StickerM.delete, mbind, M_bind, bind, self, await. cbn.
    rewrite Hg, (int_truthy_set g Hne). cbn. subst c.
    by destruct (answer h _).
Qed.

Lemma delete_requires_guild_witness :
  StickerM.delete (fun _ _ => Ok VNone) None (a_sticker, [])
  = (Ok tt, (a_sticker, [delete_guild_sticker (Some 1) 7 VMissing])).
Proof.
  exact (proj2 (proj2 (delete_requires_guild (fun _ _ => Ok VNone) None [])
                  a_sticker) 1 eq_refl ltac:(lia)).
Defined.

(** ** Reference accessors *)

Lemma reads_pure {S A} (m : M S A) (a : A) (s : S) (n : nat) :
  m s = (Ok a, s) -> reads n m s = (Ok (replicate n a), s).
Proof.
  intros Hm. induction n as [|n IH]; [reflexivity|].
  cbn [reads replicate]. unfold mbind, M_bind, bind.
  rewrite Hm. fold (@reads S A). by rewrite IH.
Qed.

(** C7.  Reading a reference accessor any number of times leaves the entity
    (and the HTTP log) as it was and gives, every time, the same handle: one
    over the stored identifier(s) and the cache lookup of its kind.
    [creator], [user] and the sticker's [guild] give [None] instead of a
    handle while their identifier is not set. *)
Theorem accessors_pure (n : nat) (h : Http) :
  (forall e : EmojiM.CustomEmoji,
     reads n EmojiM.creator (e, h) = (Ok (replicate n (creator_handle e)), (e, h)) /\
     reads n EmojiM.roles (e, h)
     = (Ok (replicate n (Proxy.mkCacheView (EmojiM._role_ids e) (EmojiM._client e)
                           Proxy.get_role)), (e, h)) /\
     reads n EmojiM.guild (e, h)
     = (Ok (replicate n (Proxy.mkCacheProxy (EmojiM._guild_id e) (EmojiM._client e)
                           Proxy.get_guild)), (e, h)) /\
     (forall p, creator_handle e = Some p ->
        Proxy.proxy_id p = EmojiM._creator_id e /\
        Proxy.proxy_method p = Proxy.get_user)) /\
  (forall s : StickerM.Sticker,
     reads n StickerM.user (s, h) = (Ok (replicate n (user_handle s)), (s, h)) /\
     reads n StickerM.guild (s, h)
     = (Ok (replicate n (sticker_guild_handle s)), (s, h)) /\
     (forall p, user_handle s = Some p ->
        Proxy.proxy_id p = StickerM._user_id s /\
        Proxy.proxy_method p = Proxy.get_user) /\
     (forall p, sticker_guild_handle s = Some p ->
        Proxy.proxy_id p = StickerM._guild_id s /\
        Proxy.proxy_method p = Proxy.get_guild)).
Proof.
  split.
  - intros e. repeat split.
    + apply reads_pure.
      unfold EmojiM.creator, creator_handle, mbind, M_bind, bind, self. cbn.
      by destruct (int_truthy _).
    + by apply reads_pure.
    + by apply reads_pure.
    + unfold creator_handle in H. destruct (int_truthy _); by simplify_eq.
    + unfold creator_handle in H. destruct (int_truthy _); by simplify_eq.
  - intros s. repeat split.
    + apply reads_pure.
      unfold StickerM.user, user_handle, mbind, M_bind, bind, self. cbn.
      by destruct (int_truthy _).
    + apply reads_pure.
      unfold StickerM.guild, sticker_guild_handle, mbind, M_bind, bind, self. cbn.
      by destruct (int_truthy _).
    + unfold user_handle in H. destruct (int_truthy _); by simplify_eq.
    + unfold user_handle in H. destruct (int_truthy _); by simplify_eq.
    + unfold sticker_guild_handle in H. destruct (int_truthy _); by simplify_eq.
    + unfold sticker_guild_handle in H. destruct (int_truthy _); by simplify_eq.
Qed.

(** ** Edits are applied after the call succeeds *)

(** C8.  When the HTTP call of an edit raises, which covers the task being
    cancelled while it awaits, [edit] raises the same exception and the
    entity is what it was: [update_from_dict] runs only on the value a
    successful call returned. *)
Theorem edit_applies_after_success (answer : Answer) (h : Http) :
  (forall (update_from_dict : value -> M EmojiM.CustomEmoji unit)
          (name roles reason : option value) (e : EmojiM.CustomEmoji),
     let c := modify_guild_emoji (EmojiM.edit_payload name roles)
                (EmojiM._guild_id e) (EmojiM.id e) (param VNone reason) in
     (forall x, answer h c = Raise x ->
        EmojiM.edit answer update_from_dict name roles reason (e, h)
        = (Raise x, (e, (h ++ [c])%list))) /\
     (forall v, answer h c = Ok v ->
        (EmojiM.edit answer update_from_dict name roles reason (e, h)).2
        = ((update_from_dict v e).2, (h ++ [c])%list))) /\
  (forall (R : Type) (update_from_dict : value -> M StickerM.Sticker R)
          (name description tags reason : option value) (s : StickerM.Sticker),
     let c := modify_guild_sticker (StickerM.edit_payload name description tags)
                (StickerM._guild_id s) (StickerM.id s) (param VMissing reason) in
     (int_truthy (StickerM._guild_id s) = false ->
        StickerM.edit answer R update_from_dict name description tags reason (s, h)
        = (Raise (ValueError "You can only edit guild stickers."), (s, h))) /\
     (forall x, int_truthy (StickerM._guild_id s) = true -> answer h c = Raise x ->
        StickerM.edit answer R update_from_dict name description tags reason (s, h)
        = (Raise x, (s, (h ++ [c])%list))) /\
     (forall v, int_truthy (StickerM._guild_id s) = true -> answer h c = Ok v ->
        StickerM.edit answer R update_from_dict name description tags reason (s, h)
        = ((update_from_dict v s).1, ((update_from_dict v s).2, (h ++ [c])%list)))).
Proof.
  split.
  - intros update name roles reason e c. split.
    + intros x Hx. subst c.
      unfold EmojiM.edit, mbind, M_bind, bind, self, await. cbn [fst snd].
      by rewrite Hx.
    + intros v Hv. subst c.
      unfold EmojiM.edit, mbind, M_bind, bind, self, await, on_self. cbn [fst snd].
      rewrite Hv. by destruct (update v e) as [[] ?].
  - intros R update name description tags reason s c. repeat split.
    + intros Hg. unfold StickerM.edit, mbind, M_bind, bind, self. cbn.
      by rewrite Hg.
    + intros x Hg Hx. subst c.
      unfold StickerM.edit, mbind, M_bind, bind, self, await. cbn [fst snd].
      rewrite Hg. cbn [negb fst snd]. by rewrite Hx.
    + intros v Hg Hv. subst c.
      unfold StickerM.edit, mbind, M_bind, bind, self, await, on_self. cbn [fst snd].
      rewrite Hg. cbn [negb fst snd]. rewrite Hv. by destruct (update v s).
Qed.

Lemma edit_applies_after_success_witness :
  StickerM.edit (fun _ _ => Raise CancelledError) unit
    (fun _ s => (Ok tt, s)) (Some (VStr "wave2")) None None None (a_sticker, [])
  = (Raise CancelledError,
     (a_sticker,
      [modify_guild_sticker (StickerM.edit_payload (Some (VStr "wave2")) None None)
         (Some 1) 7 VMissing])).
Proof.
  exact (proj1 (proj2 (proj2 (edit_applies_after_success
                                (fun _ _ => Raise CancelledError) [])
                         unit (fun _ s => (Ok tt, s))
                         (Some (VStr "wave2")) None None None a_sticker))
           CancelledError eq_refl eq_refl).
Defined.

(** ** Decoding a custom emoji *)

Lemma dict_get_set_eq (k : string) (v : value) (d : dict) :
  dict_get k (dict_set k v d) = Some v.
Proof.
  induction d as [|[k' v'] d IH]; cbn.
  - by rewrite String.eqb_refl.
  - destruct (String.eqb_spec k k') as [->|Hne]; cbn.
    + by rewrite String.eqb_refl.
    + destruct (String.eqb_spec k k'); [done | exact IH].
Qed.

Lemma dict_get_set_ne (k k' : string) (v : value) (d : dict) :
  k <> k' -> dict_get k (dict_set k' v d) = dict_get k d.
Proof.
  intros Hne. induction d as [|[k2 v2] d IH]; cbn.
  - by destruct (String.eqb_spec k k').
  - destruct (String.eqb_spec k' k2) as [->|Hne2]; cbn.
    + destruct (String.eqb_spec k k2); [congruence | reflexivity].
    + destruct (String.eqb_spec k k2); [done | exact IH].
Qed.

Lemma dict_get_remove_eq (k : string) (d : dict) :
  dict_get k (dict_remove k d) = None.
Proof.
  induction d as [|[k' v'] d IH]; [done|]. cbn.
  destruct (String.eqb_spec k k') as [->|Hne]; [exact IH|]. cbn.
  by destruct (String.eqb_spec k k').
Qed.

Lemma dict_get_remove_ne (k k' : string) (d : dict) :
  k <> k' -> dict_get k (dict_remove k' d) = dict_get k d.
Proof.
  intros Hne. induction d as [|[k2 v2] d IH]; [done|]. cbn.
  destruct (String.eqb_spec k' k2) as [->|Hne2]; cbn.
  - destruct (String.eqb_spec k k2); [congruence | exact IH].
  - destruct (String.eqb_spec k k2); [done | exact IH].
Qed.

Lemma dict_get_filter_kwargs (k : string) (d : dict) (keys : list string) :
  dict_get k (EmojiM._filter_kwargs d keys)
  = if bool_decide (k ∈ keys) then dict_get k d else None.
Proof.
  unfold EmojiM._filter_kwargs.
  induction d as [|[k' v'] d IH]; cbn [List.filter fst snd dict_get].
  - by destruct (bool_decide _).
  - destruct (bool_decide (k' ∈ keys)) eqn:Hin; cbn [dict_get].
    + destruct (String.eqb_spec k k') as [->|Hne]; [by rewrite Hin | exact IH].
    + rewrite IH. destruct (String.eqb_spec k k') as [->|Hne]; [by rewrite Hin|done].
Qed.

Lemma filter_kwargs_keys (d : dict) (keys : list string) (k : string) :
  dict_contains k (EmojiM._filter_kwargs d keys) = true -> k ∈ keys.
Proof.
  unfold dict_contains. rewrite dict_get_filter_kwargs.
  destruct (bool_decide (k ∈ keys)) eqn:Hin; [|discriminate].
  intros _. by apply bool_decide_eq_true in Hin.
Qed.

Lemma processed_creator_id (c : value) (data : dict) :
  dict_get "creator_id" (processed c data) = Some c.
Proof.
  unfold processed. destruct (dict_contains _ _).
  - rewrite dict_get_set_ne, dict_get_remove_ne by done. apply dict_get_set_eq.
  - apply dict_get_set_eq.
Qed.

Lemma processed_user (c : value) (data : dict) :
  dict_get "user" (processed c data) = None.
Proof.
  unfold processed. destruct (dict_contains _ _).
  - rewrite dict_get_set_ne, dict_get_remove_ne, dict_get_set_ne by done.
    apply dict_get_remove_eq.
  - rewrite dict_get_set_ne by done. apply dict_get_remove_eq.
Qed.

Lemma processed_roles (c : value) (data : dict) (r : value) :
  dict_get "roles" data = Some r ->
  dict_get "role_ids" (processed c data) = Some r /\
  dict_get "roles" (processed c data) = None.
Proof.
  intros Hr. unfold processed, dict_contains.
  rewrite dict_get_set_ne, dict_get_remove_ne, Hr by done. cbn [default from_option id].
  split; [apply dict_get_set_eq|].
  rewrite dict_get_set_ne by done. apply dict_get_remove_eq.
Qed.

Section Decode.
Variable Cache : Type.
Variable place_user_data : value -> M Cache Z.

Lemma process_dict_placed (data : dict) (cache cache' : Cache) (uid : Z) :
  let u := default VNone (dict_get "user" data) in
  truthy u = true -> place_user_data u cache = (Ok uid, cache') ->
  EmojiM._process_dict Cache place_user_data data cache
  = (Ok (processed (VInt uid) data), cache').
Proof.
  intros u Hu Hplace.
  unfold EmojiM._process_dict, dict_pop_default, mbind, M_bind, bind, mret, M_ret, ret.
  fold u. rewrite Hu, Hplace. reflexivity.
Qed.

Lemma process_dict_no_user (data : dict) (cache : Cache) :
  truthy (default VNone (dict_get "user" data)) = false ->
  EmojiM._process_dict Cache place_user_data data cache
  = (Ok (processed VNone data), cache).
Proof.
  intros Hu.
  unfold EmojiM._process_dict, dict_pop_default, mbind, M_bind, bind, mret, M_ret, ret.
  rewrite Hu. reflexivity.
Qed.
End Decode.

Lemma init_creator_id (client : Snake) (kwargs : dict) (e : EmojiM.CustomEmoji) (c : value) :
  dict_get "creator_id" kwargs = Some c ->
  EmojiM.init client kwargs = Ok e ->
  Snowflake.optional_to_snowflake c = Ok (EmojiM._creator_id e).
Proof.
  intros Hc Hinit. unfold EmojiM.init, EmojiM.kwarg in Hinit.
  rewrite Hc in Hinit. cbn [default from_option id] in Hinit.
  unfold mbind, result_bind in Hinit.
  repeat (match type of Hinit with
          | context [match ?x with _ => _ end] => destruct x eqn:?
          end; try discriminate).
  injection Hinit as <-. reflexivity.
Qed.

(** C9.  [CustomEmoji.from_dict]: a nested ["user"] payload is handed to
    [place_user_data] first and the identifier of the user it returns is
    stored as the creator identifier; without one (no key, or an empty or
    null value) the cache is left alone and the creator identifier is
    [None].  A ["roles"] entry reaches the constructor as ["role_ids"], and no
    key outside the declared fields reaches it. *)
Theorem custom_emoji_from_dict
    (Cache : Type) (place_user_data : value -> M Cache Z)
    (data : dict) (client : Snake) (cache : Cache) :
  let u := default VNone (dict_get "user" data) in
  let kwargs c := EmojiM._filter_kwargs (processed c data) EmojiM._get_init_keys in
  (forall uid cache',
     truthy u = true -> place_user_data u cache = (Ok uid, cache') ->
     EmojiM.from_dict Cache place_user_data data client cache
     = (EmojiM.init client (kwargs (VInt uid)), cache') /\
     dict_get "creator_id" (kwargs (VInt uid)) = Some (VInt uid) /\
     forall e, EmojiM.init client (kwargs (VInt uid)) = Ok e ->
               EmojiM._creator_id e = Some uid) /\
  (truthy u = false ->
     EmojiM.from_dict Cache place_user_data data client cache
     = (EmojiM.init client (kwargs VNone), cache) /\
     dict_get "creator_id" (kwargs VNone) = Some VNone /\
     forall e, EmojiM.init client (kwargs VNone) = Ok e ->
               EmojiM._creator_id e = None) /\
  (forall c r, dict_get "roles" data = Some r ->
     dict_get "role_ids" (kwargs c) = Some r /\ dict_get "roles" (kwargs c) = None) /\
  (forall c k, dict_contains k (kwargs c) = true -> k ∈ EmojiM._get_init_keys).
Proof.
  intros u kwargs.
  assert (Hcid : forall c, dict_get "creator_id" (kwargs c) = Some c).
  { intros c. unfold kwargs. rewrite dict_get_filter_kwargs.
    rewrite bool_decide_eq_true_2 by (unfold EmojiM._get_init_keys; set_solver).
    apply processed_creator_id. }
  split; [|split; [|split]].
  - intros uid cache' Hu Hplace. split; [|split].
    + unfold EmojiM.from_dict, EmojiM.from_dict_kwargs.
      unfold mbind at 1 2, M_bind, bind.
      rewrite (process_dict_placed Cache place_user_data data cache cache' uid Hu Hplace).
      reflexivity.
    + apply Hcid.
    + intros e He.
      pose proof (init_creator_id client _ e _ (Hcid (VInt uid)) He) as Hconv.
      cbn in Hconv. congruence.
  - intros Hu. split; [|split].
    + unfold EmojiM.from_dict, EmojiM.from_dict_kwargs.
      unfold mbind at 1 2, M_bind, bind.
      rewrite (process_dict_no_user Cache place_user_data data cache Hu).
      reflexivity.
    + apply Hcid.
    + intros e He.
      pose proof (init_creator_id client _ e _ (Hcid VNone) He) as Hconv.
      cbn in Hconv. congruence.
  - intros c r Hr. unfold kwargs. rewrite !dict_get_filter_kwargs.
    destruct (processed_roles c data r Hr) as [-> ->].
    rewrite bool_decide_eq_true_2 by (unfold EmojiM._get_init_keys; set_solver).
    split; [reflexivity | by destruct (bool_decide _)].
  - intros c k Hk. by apply filter_kwargs_keys in Hk.
Qed.

Lemma custom_emoji_from_dict_witness :
  EmojiM.from_dict (list value) filing_cache emoji_payload (SnakeRef 0) []
  = (EmojiM.init (SnakeRef 0)
       (EmojiM._filter_kwargs (processed (VInt 42) emoji_payload) EmojiM._get_init_keys),
     [VDict [("id", VStr "42"); ("username", VStr "snek")]]).
Proof.
  exact (proj1 (proj1 (custom_emoji_from_dict (list value) filing_cache
                         emoji_payload (SnakeRef 0) [])
                  42 [VDict [("id", VStr "42"); ("username", VStr "snek")]]
                  eq_refl eq_refl)).
Defined.

Example custom_emoji_from_dict_example :
  EmojiM.from_dict (list value) filing_cache emoji_payload (SnakeRef 0) []
  = (Ok {| EmojiM.id := Some 623335224318754826;
           EmojiM.name := VStr "thinksmart";
           EmojiM.animated := VBool false;
           EmojiM._client := SnakeRef 0;
           EmojiM.require_colons := VBool false;
           EmojiM.managed := VBool false;
           EmojiM.available := VBool false;
           EmojiM._creator_id := Some 42;
           EmojiM._role_ids := Some [5; 6];
           EmojiM._guild_id := None |},
     [VDict [("id", VStr "42"); ("username", VStr "snek")]]).
Proof. vm_compute. reflexivity. Qed.

(** ** Scales *)

Lemma add_scale_check_ok (c : ScaleM.Callable) (s : ScaleM.Scale) :
  ScaleM.iscoroutinefunction c = true ->
  exists s', ScaleM.add_scale_check c s = (Ok tt, s') /\
             ScaleM.scale_checks s' = (ScaleM.scale_checks s ++ [c])%list /\
             ScaleM.scale_prerun s' = ScaleM.scale_prerun s /\
             ScaleM.scale_postrun s' = ScaleM.scale_postrun s.
Proof.
  intros Hc. unfold ScaleM.add_scale_check. rewrite Hc. cbn [negb].
  unfold mbind, M_bind, bind, get_state, put_state, mret, M_ret, ret.
  unfold ScaleM.scale_checks at 1.
  destruct s as [n dn cmds cc cp cq [sc|] sp sq]; cbn [default from_option id
    ScaleM.self_scale_checks ScaleM.cls_scale_checks].
  - destruct sc; cbn; eauto.
  - destruct cc; cbn; eauto.
Qed.

Lemma add_scale_prerun_ok (c : ScaleM.Callable) (s : ScaleM.Scale) :
  ScaleM.iscoroutinefunction c = true ->
  exists s', ScaleM.add_scale_prerun c s = (Ok tt, s') /\
             ScaleM.scale_prerun s' = (ScaleM.scale_prerun s ++ [c])%list /\
             ScaleM.scale_checks s' = ScaleM.scale_checks s /\
             ScaleM.scale_postrun s' = ScaleM.scale_postrun s.
Proof.
  intros Hc. unfold ScaleM.add_scale_prerun. rewrite Hc. cbn [negb].
  unfold mbind, M_bind, bind, get_state, put_state, mret, M_ret, ret.
  unfold ScaleM.scale_prerun at 1.
  destruct s as [n dn cmds cc cp cq sc [sp|] sq]; cbn [default from_option id
    ScaleM.self_scale_prerun ScaleM.cls_scale_prerun].
  - destruct sp; cbn; eauto.
  - destruct cp; cbn; eauto.
Qed.

Lemma add_scale_postrun_ok (c : ScaleM.Callable) (s : ScaleM.Scale) :
  ScaleM.iscoroutinefunction c = true ->
  exists s', ScaleM.add_scale_postrun c s = (Ok tt, s') /\
             ScaleM.scale_postrun s' = (ScaleM.scale_postrun s ++ [c])%list /\
             ScaleM.scale_checks s' = ScaleM.scale_checks s /\
             ScaleM.scale_prerun s' = ScaleM.scale_prerun s.
Proof.
  intros Hc. unfold ScaleM.add_scale_postrun. rewrite Hc. cbn [negb].
  unfold mbind, M_bind, bind, get_state, put_state, mret, M_ret, ret.
  unfold ScaleM.scale_postrun at 1.
  destruct s as [n dn cmds cc cp cq sc sp [sq|]]; cbn [default from_option id
    ScaleM.self_scale_postrun ScaleM.cls_scale_postrun].
  - destruct sq; cbn; eauto.
  - destruct cq; cbn; eauto.
Qed.

(** C6.  A hook that is not a coroutine function is refused with
    [TypeError] and the scale is left as it was; a coroutine function goes to
    the end of the hook list it was registered for and the other two lists
    stay as they were. *)
Theorem add_scale_hooks (c : ScaleM.Callable) (s : ScaleM.Scale) :
  (ScaleM.iscoroutinefunction c = false ->
     ScaleM.add_scale_check c s = (Raise (TypeError "Check must be a coroutine"), s) /\
     ScaleM.add_scale_prerun c s = (Raise (TypeError "Callback must be a coroutine"), s) /\
     ScaleM.add_scale_postrun c s = (Raise (TypeError "Callback must be a coroutine"), s)) /\
  (ScaleM.iscoroutinefunction c = true ->
     (exists s', ScaleM.add_scale_check c s = (Ok tt, s') /\
                 ScaleM.scale_checks s' = (ScaleM.scale_checks s ++ [c])%list /\
                 ScaleM.scale_prerun s' = ScaleM.scale_prerun s /\
                 ScaleM.scale_postrun s' = ScaleM.scale_postrun s) /\
     (exists s', ScaleM.add_scale_prerun c s = (Ok tt, s') /\
                 ScaleM.scale_prerun s' = (ScaleM.scale_prerun s ++ [c])%list /\
                 ScaleM.scale_checks s' = ScaleM.scale_checks s /\
                 ScaleM.scale_postrun s' = ScaleM.scale_postrun s) /\
     (exists s', ScaleM.add_scale_postrun c s = (Ok tt, s') /\
                 ScaleM.scale_postrun s' = (ScaleM.scale_postrun s ++ [c])%list /\
                 ScaleM.scale_checks s' = ScaleM.scale_checks s /\
                 ScaleM.scale_prerun s' = ScaleM.scale_prerun s)).
Proof.
  split.
  - intros Hc.
    unfold ScaleM.add_scale_check, ScaleM.add_scale_prerun, ScaleM.add_scale_postrun.
    rewrite Hc. done.
  - intros Hc. split; [|split].
    + by apply add_scale_check_ok.
    + by apply add_scale_prerun_ok.
    + by apply add_scale_postrun_ok.
Qed.

Lemma add_scale_hooks_witness :
  ScaleM.add_scale_check {| ScaleM.fn := 1; ScaleM.iscoroutinefunction := false |}
    ping_scale
  = (Raise (TypeError "Check must be a coroutine"), ping_scale).
Proof.
  exact (proj1 (proj1 (add_scale_hooks
                         {| ScaleM.fn := 1; ScaleM.iscoroutinefunction := false |}
                         ping_scale) eq_refl)).
Defined.

Example add_scale_check_example :
  let c1 := {| ScaleM.fn := 1; ScaleM.iscoroutinefunction := true |} in
  let c2 := {| ScaleM.fn := 2; ScaleM.iscoroutinefunction := true |} in
  ScaleM.scale_checks
    (ScaleM.add_scale_check c2 (ScaleM.add_scale_check c1 ping_scale).2).2
  = [c1; c2].
Proof. reflexivity. Qed.

(** The membership test of the interaction branch: an interaction command
    that is not in the table is skipped. *)
Lemma shed_command_interaction_absent (n : string) (sc : Z) (bot : ScaleM.Client) :
  (forall d, ScaleM.interactions bot !! sc = Some d -> d !! n = None) ->
  ScaleM.shed_command (ScaleM.InteractionCommand n sc) bot = (Ok tt, bot).
Proof.
  intros Habs. unfold ScaleM.shed_command, mbind, M_bind, bind, get_state.
  destruct (ScaleM.interactions bot !! sc) as [d|] eqn:Hd; cbn.
  - rewrite (Habs d eq_refl).
    rewrite (bool_decide_eq_false_2 (is_Some None)) by (intros [? ?]; discriminate).
    by rewrite andb_false_r.
  - reflexivity.
Qed.

(** The test of the message branch subscripts the table: a message command
    that is not in it makes the loop raise [KeyError]. *)
Lemma shed_command_message_absent (n : string) (bot : ScaleM.Client) :
  ScaleM.commands bot !! n = None ->
  ScaleM.shed_command (ScaleM.MessageCommand n) bot = (Raise (KeyError n), bot).
Proof.
  intros Habs. unfold ScaleM.shed_command, mbind, M_bind, bind, get_state. cbn.
  by rewrite Habs.
Qed.

Lemma shed_message_absent (this : ScaleM.Scale) (n : string) (rest : list ScaleM.Command)
    (bot : ScaleM.Client) :
  ScaleM._commands this = ScaleM.MessageCommand n :: rest ->
  ScaleM.commands bot !! n = None ->
  ScaleM.shed this bot = (Raise (KeyError n), bot).
Proof.
  intros Hcmds Habs. unfold ScaleM.shed. rewrite Hcmds.
  cbn [ScaleM.for_each]. unfold mbind, M_bind, bind.
  by rewrite (shed_command_message_absent n bot Habs).
Qed.

(** C2.  [PingScale] registers its message command ["ping"]; the first
    [shed] takes the command out and then raises [AttributeError] on
    [self.__name__], so the scale stays in the registry; the second [shed]
    finds no ["ping"] in the table and raises [KeyError]. *)
Theorem shed_twice_raises :
  exists bot1 bot2,
    ScaleM.new "PingScale" ping_class empty_client = (Ok ping_scale, bot1) /\
    ScaleM.commands bot1 !! "ping" = Some (ScaleM.MessageCommand "ping") /\
    ScaleM.scales bot1 !! "PingScale" = Some "PingScale" /\
    ScaleM.shed ping_scale bot1 = (Raise (AttributeError "__name__"), bot2) /\
    ScaleM.commands bot2 !! "ping" = None /\
    ScaleM.scales bot2 !! "PingScale" = Some "PingScale" /\
    ScaleM.shed ping_scale bot2 = (Raise (KeyError "ping"), bot2).
Proof.
  eexists _, _. split; [reflexivity|].
  split; [reflexivity|]. split; [reflexivity|].
  split; [reflexivity|].
  split; [reflexivity|]. split; [reflexivity|].
  apply (shed_message_absent ping_scale "ping" []); reflexivity.
Qed.

Lemma accessors_pure_witness :
  reads 3 StickerM.user (a_sticker, [])
  = (Ok (replicate 3 (user_handle a_sticker)), (a_sticker, [])) /\
  Proxy.proxy_id (Proxy.mkCacheProxy (Some 3) (SnakeRef 0) Proxy.get_user)
  = StickerM._user_id a_sticker.
Proof.
  split.
  - exact (proj1 (proj2 (accessors_pure 3 []) a_sticker)).
  - exact (proj1 (proj1 (proj2 (proj2 (proj2 (accessors_pure 3 []) a_sticker)))
                    (Proxy.mkCacheProxy (Some 3) (SnakeRef 0) Proxy.get_user)
                    eq_refl)).
Defined.

(** * Further properties of the code *)

(** ** asset.py *)

Lemma pow2_in_range (k : Z) :
  0 <= k -> 16 <= 2 ^ k <= 4096 -> 4 <= k <= 12.
Proof.
  intros Hk [Hlo Hhi]. split.
  - apply (Z.pow_le_mono_r_iff 2); [lia | lia | exact Hlo].
  - apply (Z.pow_le_mono_r_iff 2); [lia | lia | exact Hhi].
Qed.

Lemma valid_size_accepted (size : Z) : valid_size size <-> size ∈ accepted_sizes.
Proof.
  split.
  - intros [(k & Hk & ->) Hr].
    pose proof (pow2_in_range k Hk Hr) as Hk'.
    assert (Hcases : k = 4 \/ k = 5 \/ k = 6 \/ k = 7 \/ k = 8 \/ k = 9 \/ k = 10
                     \/ k = 11 \/ k = 12) by lia.
    unfold accepted_sizes. clear Hk Hr Hk'.
    destruct Hcases as [->|[->|[->|[->|[->|[->|[->|[->| ->]]]]]]]];
      cbn; set_solver.
  - unfold accepted_sizes. intros Hin.
    repeat (apply elem_of_cons in Hin as [-> | Hin];
            [split; [|lia];
             first [ by exists 4 | by exists 5 | by exists 6 | by exists 7
                   | by exists 8 | by exists 9 | by exists 10 | by exists 11
                   | by exists 12 ] |]).
    by apply elem_of_nil in Hin.
Qed.

(** The sizes for which [get] builds a URL are 16, 32, ..., 4096, and the
    zero that stands for no size; every other integer is refused. *)
Theorem asset_get_accepted_sizes
    (a : AssetM.Asset) (extension : option string) (size : Z) :
  is_ok (AssetM.get_url a extension (Some size)) = true
  <-> size = 0 \/ size ∈ accepted_sizes.
Proof.
  destruct (decide (size = 0)) as [->|Hz].
  - split; [by left | reflexivity].
  - rewrite <- valid_size_accepted. split.
    + intros Hok. right.
      destruct (decide (size ∈ accepted_sizes)) as [Hin|Hout].
      * by apply valid_size_accepted.
      * exfalso. rewrite <- valid_size_accepted in Hout.
        destruct (get_url_invalid a extension size Hz Hout) as [msg Hm].
        rewrite Hm in Hok. discriminate.
    + intros [?|Hv]; [done|]. by rewrite get_url_valid.
Qed.

(** The two checks of [get] run in order: a size that is not a power of
    two is refused as such whatever its magnitude, and the range is only
    looked at for a power of two. *)
Theorem asset_get_size_error_kind
    (a : AssetM.Asset) (extension : option string) (size : Z) :
  size <> 0 ->
  (~ (exists k, 0 <= k /\ size = 2 ^ k) ->
     AssetM.get_url a extension (Some size)
     = Raise (ValueError "Size should be a power of 2")) /\
  ((exists k, 0 <= k /\ size = 2 ^ k) -> ~ 16 <= size <= 4096 ->
     AssetM.get_url a extension (Some size)
     = Raise (ValueError "Size should be between 16 and 4096")).
Proof.
  intros Hz.
  unfold AssetM.get_url. cbn [int_truthy default from_option id].
  destruct (Z.eqb_spec size 0) as [|_]; [lia|]. cbn [negb andb].
  split.
  - intros Hnp.
    destruct (Z.eqb_spec (Z.land size (size - 1)) 0) as [Hland|_]; [|reflexivity].
    exfalso. apply Hnp. by apply land_pred_iff_pow2.
  - intros Hp Hr. apply (land_pred_iff_pow2 size Hz) in Hp. rewrite Hp.
    cbn [Z.eqb negb].
    destruct (Z.leb_spec 16 size); [|reflexivity].
    destruct (Z.leb_spec size 4096); [lia | reflexivity].
Qed.

Lemma asset_get_size_error_kind_witness :
  AssetM.get_url {| AssetM._client := SnakeRef 0; AssetM.url := "u";
                    AssetM.hash := None |} None (Some 8)
  = Raise (ValueError "Size should be between 16 and 4096").
Proof.
  refine (proj2 (asset_get_size_error_kind _ None 8 ltac:(lia)) _ ltac:(lia)).
  exists 3. split; [lia | reflexivity].
Defined.

(** Without a size, or with the size zero, the requested URL is the
    asset's URL followed by the extension.  An extension that is given and
    not empty is used as it is, whatever the hash; the empty string counts
    as no extension. *)
Theorem asset_get_without_size (a : AssetM.Asset) (extension : option string) :
  AssetM.get_url a extension None
  = Ok (AssetM.url a +:+ AssetM.default_extension a extension) /\
  AssetM.get_url a extension (Some 0) = AssetM.get_url a extension None /\
  (forall e, e <> "" -> AssetM.default_extension a (Some e) = e) /\
  AssetM.default_extension a (Some "") = AssetM.default_extension a None.
Proof.
  repeat split.
  intros e He. unfold AssetM.default_extension. cbn [str_truthy].
  destruct (String.eqb_spec e ""); [done | reflexivity].
Qed.

Lemma asset_get_without_size_witness :
  AssetM.default_extension
    {| AssetM._client := SnakeRef 0; AssetM.url := "u"; AssetM.hash := Some "a_1" |}
    (Some ".webp") = ".webp".
Proof.
  apply (proj1 (proj2 (proj2 (asset_get_without_size _ None)))). discriminate.
Defined.

Lemma format_go_brace_free (used : bool) (arg p rest : string) :
  brace_free p = true ->
  format_go used arg (p +:+ rest) = (fun r => p +:+ r) <$> format_go used arg rest.
Proof.
  induction p as [|c p IH]; intros Hp.
  - change ("" +:+ rest) with rest.
    destruct (format_go used arg rest); reflexivity.
  - cbn [brace_free] in Hp.
    apply andb_prop in Hp as [Hc Hp]. apply andb_prop in Hc as [Hl Hr].
    apply negb_true_iff in Hl, Hr.
    change (String c p +:+ rest) with (String c (p +:+ rest)).
    cbn [format_go]. rewrite Hl, Hr, (IH Hp).
    destruct (format_go used arg rest); reflexivity.
Qed.

Lemma string_app_cons (c : ascii) (s t : string) :
  String c s +:+ t = String c (s +:+ t).
Proof. reflexivity. Qed.

Lemma string_app_nil_r (s : string) : s +:+ "" = s.
Proof. induction s as [|c s IH]; [done|]. by rewrite string_app_cons, IH. Qed.

Lemma string_length_app (s t : string) :
  String.length (s +:+ t) = (String.length s + String.length t)%nat.
Proof.
  induction s as [|c s IH]; [done|].
  rewrite string_app_cons. cbn [String.length]. by rewrite IH.
Qed.

Lemma string_app_assoc (x y z : string) : (x +:+ y) +:+ z = x +:+ (y +:+ z).
Proof.
  induction x as [|c x IH]; [done|]. by rewrite !string_app_cons, IH.
Qed.

Lemma format1_one_field (p q arg : string) :
  brace_free p = true -> brace_free q = true ->
  format1 (p +:+ "{}" +:+ q) arg = Some (p +:+ arg +:+ q).
Proof.
  intros Hp Hq. unfold format1.
  rewrite format_go_brace_free by done.
  change ("{}" +:+ q) with (String "{" (String "}" q)).
  cbn [format_go Ascii.eqb Bool.eqb].
  replace q with (q +:+ "") at 1 by apply string_app_nil_r.
  rewrite format_go_brace_free by done. cbn.
  by rewrite string_app_nil_r.
Qed.

(** [from_path_hash] with a template of one field [{}] between two pieces
    without braces: the URL is the CDN address, a slash, and the template
    with the hash in place of the field, the hash taken as it is; the asset
    keeps the hash. *)
Theorem from_path_hash_template (client : Snake) (p q asset_hash : string) :
  brace_free p = true -> brace_free q = true ->
  AssetM.from_path_hash client (p +:+ "{}" +:+ q) asset_hash
  = Some {| AssetM._client := client;
            AssetM.url := AssetM.BASE +:+ "/" +:+ p +:+ asset_hash +:+ q;
            AssetM.hash := Some asset_hash |}.
Proof.
  intros Hp Hq. unfold AssetM.from_path_hash.
  by rewrite format1_one_field.
Qed.

Lemma from_path_hash_template_witness :
  AssetM.from_path_hash (SnakeRef 0) ("avatars/42/" +:+ "{}" +:+ "") "a_{x}"
  = Some {| AssetM._client := SnakeRef 0;
            AssetM.url := "https://cdn.discordapp.com/avatars/42/a_{x}";
            AssetM.hash := Some "a_{x}" |}.
Proof.
  exact (from_path_hash_template (SnakeRef 0) "avatars/42/" "" "a_{x}" eq_refl eq_refl).
Defined.

Lemma prefix_app (s t : string) : String.prefix s (s +:+ t) = true.
Proof.
  induction s as [|c s IH]; [by destruct t|].
  rewrite string_app_cons. cbn [String.prefix].
  destruct (Ascii.ascii_dec c c); [exact IH | done].
Qed.

Lemma get_url_prefix (a : AssetM.Asset) (extension : option string) (size : option Z)
    (u : string) :
  AssetM.get_url a extension size = Ok u -> String.prefix (AssetM.url a) u = true.
Proof.
  unfold AssetM.get_url.
  destruct (int_truthy size); [|intros [= <-]; apply prefix_app].
  destruct (negb _); [discriminate|]. destruct (negb _); [discriminate|].
  intros [= <-].
  rewrite string_app_assoc. apply prefix_app.
Qed.

(** Whatever its arguments and whatever the HTTP layer answers, [get]
    leaves the asset as it is and makes at most one request, for a URL that
    starts with the asset's URL; when it makes none it has raised. *)
Theorem asset_get_effects
    (answer : Answer) (a : AssetM.Asset) (extension : option string)
    (size : option Z) (h : Http) :
  (raises (AssetM.get answer extension size (a, h)).1 /\
   (AssetM.get answer extension size (a, h)).2 = (a, h)) \/
  (exists u, String.prefix (AssetM.url a) u = true /\
             AssetM.get answer extension size (a, h)
             = (answer h (request_cdn u), (a, (h ++ [request_cdn u])%list))).
Proof.
  unfold AssetM.get, mbind, M_bind, bind, self, lift, await. cbn [fst snd].
  destruct (AssetM.get_url a extension size) as [u|e] eqn:Hu.
  - right. exists u. split; [by eapply get_url_prefix | reflexivity].
  - left. split; [by exists e | reflexivity].
Qed.

(** ** utils/misc_utils.py: [find] *)



(** ** emoji.py: text forms and request helpers *)

(** For an emoji with an identifier and a textual name, [str] is
    [req_format] between angle brackets, with ["a:"] in front when the emoji
    is animated. *)
Theorem emoji_str_wraps_req_format (e : EmojiOps.Emoji) (n : string) :
  int_truthy (EmojiOps.id e) = true ->
  EmojiOps.py_str (EmojiOps.name e) = Some n ->
  exists r,
    EmojiOps.req_format e = Some (VStr r) /\
    EmojiOps.to_str e
    = Some ("<" +:+ (if truthy (EmojiOps.animated e) then "a:" else "") +:+ r +:+ ">").
Proof.
  intros Hid Hn. exists (n +:+ ":" +:+ EmojiOps.id_str (EmojiOps.id e)).
  unfold EmojiOps.req_format, EmojiOps.to_str. rewrite Hid, Hn. cbn [mbind option_bind].
  split; [reflexivity|].
  by rewrite !string_app_assoc.
Qed.

Lemma emoji_str_wraps_req_format_witness :
  exists r,
    EmojiOps.req_format
      {| EmojiOps.id := Some 623335224318754826; EmojiOps.name := VStr "thinksmart";
         EmojiOps.animated := VBool true |} = Some (VStr r) /\
    EmojiOps.to_str
      {| EmojiOps.id := Some 623335224318754826; EmojiOps.name := VStr "thinksmart";
         EmojiOps.animated := VBool true |}
    = Some ("<" +:+ "a:" +:+ r +:+ ">").
Proof.
  exact (emoji_str_wraps_req_format
           {| EmojiOps.id := Some 623335224318754826; EmojiOps.name := VStr "thinksmart";
              EmojiOps.animated := VBool true |} "thinksmart" eq_refl eq_refl).
Defined.

(** An emoji without an identifier, a unicode emoji for one, has its bare
    name as request form, while its [str] still has the brackets and ends in
    [":None>"]. *)
Theorem emoji_without_id_forms (e : EmojiOps.Emoji) (n : string) :
  EmojiOps.id e = None ->
  EmojiOps.name e = VStr n ->
  EmojiOps.req_format e = Some (VStr n) /\
  EmojiOps.to_str e
  = Some (("<" +:+ (if truthy (EmojiOps.animated e) then "a:" else "") +:+ n)
            +:+ ":None>").
Proof.
  intros Hid Hn. unfold EmojiOps.req_format, EmojiOps.to_str.
  rewrite Hid, Hn. cbn [EmojiOps.py_str int_truthy EmojiOps.id_str mbind option_bind].
  split; [reflexivity|].
  by rewrite !string_app_assoc.
Qed.

Lemma emoji_without_id_forms_witness :
  EmojiOps.req_format (EmojiOps.unicode "snek") = Some (VStr "snek") /\
  EmojiOps.to_str (EmojiOps.unicode "snek") = Some "<snek:None>".
Proof.
  exact (emoji_without_id_forms (EmojiOps.unicode "snek") "snek" eq_refl eq_refl).
Defined.

Section ProcessEmoji.
Variable from_dict : dict -> result EmojiOps.Emoji.
Variable to_dict : EmojiOps.Emoji -> dict.

(** A string and the unicode emoji made from it go out in the same request
    form, the string itself; the empty string is no exception. *)
Theorem process_emoji_req_format_unicode (s : string) :
  EmojiOps.process_emoji_req_format from_dict (EmojiOps.AEmoji (EmojiOps.unicode s))
  = Some (Ok (EmojiOps.AValue (VStr s))) /\
  EmojiOps.process_emoji_req_format from_dict (EmojiOps.AValue (VStr s))
  = Some (Ok (EmojiOps.AValue (VStr s))).
Proof.
  split; [reflexivity|].
  unfold EmojiOps.process_emoji_req_format. cbn [EmojiOps.arg_truthy truthy].
  by destruct (negb (negb _)).
Qed.

(** [process_emoji] turns a non-empty string into the dictionary of its
    unicode emoji, but hands the empty string back as it is: for a false
    argument the result is the argument, not a dictionary. *)
Theorem process_emoji_string (s : string) :
  (s <> "" ->
   EmojiOps.process_emoji to_dict (EmojiOps.AValue (VStr s))
   = EmojiOps.process_emoji to_dict (EmojiOps.AEmoji (EmojiOps.unicode s))) /\
  EmojiOps.process_emoji to_dict (EmojiOps.AValue (VStr ""))
  = Some (Ok (EmojiOps.AValue (VStr ""))) /\
  EmojiOps.process_emoji to_dict (EmojiOps.AEmoji (EmojiOps.unicode ""))
  = Some (Ok (EmojiOps.AValue (VDict (to_dict (EmojiOps.unicode ""))))).
Proof.
  split; [|split; reflexivity].
  intros Hs. unfold EmojiOps.process_emoji. cbn [EmojiOps.arg_truthy truthy].
  by destruct (String.eqb_spec s "").
Qed.
End ProcessEmoji.

(** ** emoji.py: more on decoding *)

Lemma processed_other_keys (c : value) (data : dict) (k : string) :
  k <> "user" -> k <> "creator_id" -> k <> "roles" -> k <> "role_ids" ->
  dict_get k (processed c data) = dict_get k data.
Proof.
  intros H1 H2 H3 H4. unfold processed. destruct (dict_contains _ _).
  - by rewrite dict_get_set_ne, dict_get_remove_ne, dict_get_set_ne,
      dict_get_remove_ne.
  - by rewrite dict_get_set_ne, dict_get_remove_ne.
Qed.

Section DecodeMore.
Variable Cache : Type.
Variable place_user_data : value -> M Cache Z.

Lemma from_dict_unfold (data : dict) (client : Snake) (cache : Cache) :
  EmojiM.from_dict Cache place_user_data data client cache
  = (let u := default VNone (dict_get "user" data) in
     if truthy u then
       match place_user_data u cache with
       | (Ok uid, cache') =>
           (EmojiM.init client
              (EmojiM._filter_kwargs (processed (VInt uid) data) EmojiM._get_init_keys),
            cache')
       | (Raise x, cache') => (Raise x, cache')
       end
     else
       (EmojiM.init client
          (EmojiM._filter_kwargs (processed VNone data) EmojiM._get_init_keys),
        cache)).
Proof.
  cbv zeta. destruct (truthy (default VNone (dict_get "user" data))) eqn:Hu.
  - destruct (place_user_data _ cache) as [[uid|x] cache'] eqn:Hplace.
    + unfold EmojiM.from_dict, EmojiM.from_dict_kwargs.
      unfold mbind at 1 2, M_bind, bind.
      by rewrite (process_dict_placed Cache place_user_data data cache cache' uid Hu Hplace).
    + unfold EmojiM.from_dict, EmojiM.from_dict_kwargs, EmojiM._process_dict,
        dict_pop_default, mbind, M_bind, bind.
      by rewrite Hu, Hplace.
  - unfold EmojiM.from_dict, EmojiM.from_dict_kwargs.
    unfold mbind at 1 2, M_bind, bind.
    by rewrite (process_dict_no_user Cache place_user_data data cache Hu).
Qed.

Lemma from_dict_ok_inv (data : dict) (client : Snake) (cache cache' : Cache)
    (e : EmojiM.CustomEmoji) :
  EmojiM.from_dict Cache place_user_data data client cache = (Ok e, cache') ->
  exists c, EmojiM.init client
              (EmojiM._filter_kwargs (processed c data) EmojiM._get_init_keys) = Ok e.
Proof.
  rewrite from_dict_unfold. cbv zeta.
  destruct (truthy _).
  - destruct (place_user_data _ cache) as [[uid|x] c1]; [|discriminate].
    intros [= H _]. eauto.
  - intros [= H _]. eauto.
Qed.

Lemma init_plain_fields (client : Snake) (kwargs : dict) (e : EmojiM.CustomEmoji) :
  EmojiM.init client kwargs = Ok e ->
  EmojiM._client e = client /\
  EmojiM.name e = EmojiM.kwarg "name" VNone kwargs /\
  EmojiM.animated e = EmojiM.kwarg "animated" (VBool false) kwargs /\
  EmojiM.require_colons e = EmojiM.kwarg "require_colons" (VBool false) kwargs /\
  EmojiM.managed e = EmojiM.kwarg "managed" (VBool false) kwargs /\
  EmojiM.available e = EmojiM.kwarg "available" (VBool false) kwargs.
Proof.
  intros Hinit. unfold EmojiM.init in Hinit.
  unfold mbind, result_bind in Hinit.
  repeat (match type of Hinit with
          | context [match ?x with _ => _ end] => destruct x eqn:?
          end; try discriminate).
  injection Hinit as <-. repeat split.
Qed.

Lemma kwargs_plain_key (c : value) (data : dict) (k : string) :
  k ∈ ["name"; "animated"; "require_colons"; "managed"; "available"] ->
  dict_get k (EmojiM._filter_kwargs (processed c data) EmojiM._get_init_keys)
  = dict_get k data.
Proof.
  intros Hk. rewrite dict_get_filter_kwargs.
  rewrite bool_decide_eq_true_2 by (unfold EmojiM._get_init_keys; set_solver).
  apply processed_other_keys; intros ->; set_solver.
Qed.

(** A decoded custom emoji carries the client it was decoded for and, for
    the fields without a converter, the payload's own values or else the
    declared defaults; so it is usable exactly when the payload says
    [available] with a true value, and never when the payload is silent. *)
Theorem custom_emoji_from_dict_fields
    (data : dict) (client : Snake) (cache cache' : Cache) (e : EmojiM.CustomEmoji) :
  EmojiM.from_dict Cache place_user_data data client cache = (Ok e, cache') ->
  EmojiM._client e = client /\
  EmojiM.name e = default VNone (dict_get "name" data) /\
  EmojiM.animated e = default (VBool false) (dict_get "animated" data) /\
  EmojiM.require_colons e = default (VBool false) (dict_get "require_colons" data) /\
  EmojiM.managed e = default (VBool false) (dict_get "managed" data) /\
  EmojiM.available e = default (VBool false) (dict_get "available" data) /\
  EmojiM.is_usable e = truthy (default (VBool false) (dict_get "available" data)).
Proof.
  intros Hfd. destruct (from_dict_ok_inv _ _ _ _ _ Hfd) as [c Hinit].
  destruct (init_plain_fields _ _ _ Hinit) as (Hc & Hn & Ha & Hr & Hm & Hv).
  unfold EmojiM.kwarg in *.
  rewrite kwargs_plain_key in Hn, Ha, Hr, Hm, Hv by set_solver.
  repeat (split; [done|]).
  unfold EmojiM.is_usable. rewrite Hv. by destruct (truthy _).
Qed.

End DecodeMore.

Lemma custom_emoji_from_dict_fields_witness :
  EmojiM.name
    {| EmojiM.id := Some 623335224318754826; EmojiM.name := VStr "thinksmart";
       EmojiM.animated := VBool false; EmojiM._client := SnakeRef 0;
       EmojiM.require_colons := VBool false; EmojiM.managed := VBool false;
       EmojiM.available := VBool false; EmojiM._creator_id := Some 42;
       EmojiM._role_ids := Some [5; 6]; EmojiM._guild_id := None |}
  = default VNone (dict_get "name" emoji_payload).
Proof.
  exact (proj1 (proj2 (custom_emoji_from_dict_fields (list value) filing_cache
                         emoji_payload (SnakeRef 0) []
                         [VDict [("id", VStr "42"); ("username", VStr "snek")]]
                         _ eq_refl))).
Defined.


Lemma dict_remove_set (k k0 : string) (c : value) (d : dict) :
  k <> k0 -> dict_remove k (dict_set k0 c d) = dict_set k0 c (dict_remove k d).
Proof.
  intros Hne. induction d as [|[k1 v1] d IH]; cbn [dict_set dict_remove].
  - by destruct (String.eqb_spec k k0).
  - destruct (String.eqb_spec k0 k1) as [->|Hne1]; cbn [dict_remove dict_set].
    + destruct (String.eqb_spec k k1); [done|]. cbn [dict_set].
      by rewrite String.eqb_refl.
    + destruct (String.eqb_spec k k1) as [->|Hne2]; [exact IH|].
      cbn [dict_set]. destruct (String.eqb_spec k0 k1); [done|]. by rewrite IH.
Qed.

Lemma dict_remove_remove (k k0 : string) (d : dict) :
  dict_remove k (dict_remove k0 d) = dict_remove k0 (dict_remove k d).
Proof.
  induction d as [|[k1 v1] d IH]; [done|]. cbn [dict_remove].
  destruct (String.eqb_spec k0 k1) as [E0|H0], (String.eqb_spec k k1) as [E1|H1];
    cbn [dict_remove]; try exact IH.
  - destruct (String.eqb_spec k0 k1); [exact IH | congruence].
  - destruct (String.eqb_spec k k1); [exact IH | congruence].
  - destruct (String.eqb_spec k0 k1), (String.eqb_spec k k1); try congruence.
Qed.

Lemma filter_kwargs_remove (k : string) (d : dict) (keys : list string) :
  k ∉ keys ->
  EmojiM._filter_kwargs (dict_remove k d) keys = EmojiM._filter_kwargs d keys.
Proof.
  intros Hk. unfold EmojiM._filter_kwargs.
  induction d as [|[k1 v1] d IH]; [done|]. cbn [dict_remove List.filter fst].
  destruct (String.eqb_spec k k1) as [->|Hne].
  - by rewrite bool_decide_eq_false_2.
  - cbn [List.filter fst]. by rewrite IH.
Qed.

Lemma processed_remove (c : value) (data : dict) (k : string) :
  k <> "user" -> k <> "creator_id" -> k <> "roles" -> k <> "role_ids" ->
  processed c (dict_remove k data) = dict_remove k (processed c data).
Proof.
  intros H1 H2 H3 H4. unfold processed, dict_contains.
  rewrite (dict_remove_remove "user" k data).
  rewrite <- (dict_remove_set k "creator_id") by done.
  rewrite (dict_get_remove_ne "roles" k) by done.
  destruct (dict_get "roles" _); [|done].
  rewrite (dict_remove_remove "roles" k).
  by rewrite <- (dict_remove_set k "role_ids") by done.
Qed.

(** Keys the entity does not declare are ignored wherever they stand in
    the payload: decoding gives the same emoji, and leaves the cache the
    same, as decoding the payload without them. *)
Theorem custom_emoji_from_dict_ignores_unknown
    (Cache : Type) (place_user_data : value -> M Cache Z)
    (data : dict) (client : Snake) (cache : Cache) (k : string) :
  k ∉ EmojiM._get_init_keys -> k <> "user" -> k <> "roles" ->
  EmojiM.from_dict Cache place_user_data (dict_remove k data) client cache
  = EmojiM.from_dict Cache place_user_data data client cache.
Proof.
  intros Hk Hu Hr.
  assert (k <> "creator_id" /\ k <> "role_ids") as [Hc Hi].
  { split; intros ->; apply Hk; unfold EmojiM._get_init_keys; set_solver. }
  rewrite !from_dict_unfold. cbv zeta.
  rewrite (dict_get_remove_ne "user" k) by done.
  assert (Hkw : forall c,
    EmojiM._filter_kwargs (processed c (dict_remove k data)) EmojiM._get_init_keys
    = EmojiM._filter_kwargs (processed c data) EmojiM._get_init_keys).
  { intros c. rewrite processed_remove by done. by apply filter_kwargs_remove. }
  destruct (truthy _).
  - destruct (place_user_data _ cache) as [[uid|x] c1]; [|done]. by rewrite Hkw.
  - by rewrite Hkw.
Qed.

Lemma custom_emoji_from_dict_ignores_unknown_witness :
  EmojiM.from_dict (list value) filing_cache (dict_remove "version" emoji_payload)
    (SnakeRef 0) []
  = EmojiM.from_dict (list value) filing_cache emoji_payload (SnakeRef 0) [].
Proof.
  apply (custom_emoji_from_dict_ignores_unknown (list value) filing_cache
           emoji_payload (SnakeRef 0) [] "version");
    [unfold EmojiM._get_init_keys; intros H;
     repeat (apply elem_of_cons in H as [H|H]; [discriminate H|]);
     by apply elem_of_nil in H
    | discriminate | discriminate].
Defined.

(** ** scale.py: shedding *)

Lemma shed_command_interaction (n : string) (sc : Z) (bot : ScaleM.Client) :
  exists bot',
    ScaleM.shed_command (ScaleM.InteractionCommand n sc) bot = (Ok tt, bot') /\
    ScaleM.commands bot' = ScaleM.commands bot /\
    ScaleM.scales bot' = ScaleM.scales bot /\
    ScaleM.listeners bot' = ScaleM.listeners bot /\
    forall sc' n', interaction_at bot' sc' n'
                   = if decide (sc' = sc /\ n' = n) then None
                     else interaction_at bot sc' n'.
Proof.
  unfold ScaleM.shed_command, mbind, M_bind, bind, get_state, put_state, mret,
    M_ret, ret.
  destruct (ScaleM.nonempty (ScaleM.interactions bot !! sc)
            && bool_decide (is_Some (default ∅ (ScaleM.interactions bot !! sc) !! n)))
    eqn:Hcond.
  - eexists. split; [reflexivity|]. repeat split.
    intros sc' n'. unfold interaction_at. cbn [ScaleM.interactions ScaleM.set_interactions].
    destruct (decide (sc' = sc)) as [->|Hsc].
    + rewrite lookup_insert_eq.
      destruct (decide (n' = n)) as [->|Hn].
      * rewrite decide_True by done. apply lookup_delete_eq.
      * rewrite decide_False by (intros [_ ?]; done).
        rewrite lookup_delete_ne by done.
        apply andb_prop in Hcond as [Hne _].
        by destruct (ScaleM.interactions bot !! sc).
    + rewrite lookup_insert_ne by done.
      by rewrite decide_False by (intros [? _]; done).
  - exists bot. split; [reflexivity|]. repeat split.
    intros sc' n'. case_decide as Heq; [|done]. destruct Heq as [-> ->].
    unfold interaction_at.
    destruct (ScaleM.interactions bot !! sc) as [d|] eqn:Hd; [|done].
    cbn [default from_option id ScaleM.nonempty] in Hcond.
    apply andb_false_iff in Hcond as [Hemp | Hnot].
    + apply negb_false_iff, bool_decide_eq_true in Hemp. by rewrite Hemp.
    + apply bool_decide_eq_false in Hnot.
      destruct (d !! n) eqn:Hdn; [|done]. exfalso. apply Hnot. eauto.
Qed.

Lemma shed_command_message (n : string) (bot : ScaleM.Client) :
  ScaleM.shed_command (ScaleM.MessageCommand n) bot
  = match ScaleM.commands bot !! n with
    | Some _ => (Ok tt, ScaleM.set_commands (delete n (ScaleM.commands bot)) bot)
    | None => (Raise (KeyError n), bot)
    end.
Proof.
  unfold ScaleM.shed_command, mbind, M_bind, bind, get_state, put_state, mret,
    M_ret, ret.
  by destruct (ScaleM.commands bot !! n).
Qed.

(** What one turn of the loop changes: nothing but the entry of its own
    command, which is gone if the turn succeeds. *)
Lemma shed_command_effect (cmd : ScaleM.Command) (bot : ScaleM.Client) :
  let bot' := (ScaleM.shed_command cmd bot).2 in
  ScaleM.scales bot' = ScaleM.scales bot /\
  ScaleM.listeners bot' = ScaleM.listeners bot /\
  (forall c, c <> cmd -> table_entry bot' c = table_entry bot c) /\
  (table_entry bot cmd = None -> table_entry bot' cmd = None) /\
  ((ScaleM.shed_command cmd bot).1 = Ok tt -> table_entry bot' cmd = None).
Proof.
  destruct cmd as [n sc | n]; cbv zeta.
  - destruct (shed_command_interaction n sc bot)
      as (bot' & -> & Hc & Hs & Hl & Hi).
    cbn [fst snd]. split; [done|]. split; [done|]. split; [|split].
    + intros [n' sc' | n'] Hne; cbn [table_entry].
      * rewrite Hi. apply decide_False. intros [-> ->]. done.
      * by rewrite Hc.
    + intros _. cbn [table_entry]. rewrite Hi. by apply decide_True.
    + intros _. cbn [table_entry]. rewrite Hi. by apply decide_True.
  - rewrite shed_command_message.
    destruct (ScaleM.commands bot !! n) eqn:Hn; cbn [fst snd].
    + split; [done|]. split; [done|]. split; [|split].
      * intros [n' sc' | n'] Hne; cbn [table_entry]; [done|].
        cbn [ScaleM.commands ScaleM.set_commands].
        apply lookup_delete_ne. congruence.
      * intros _. cbn [table_entry ScaleM.commands ScaleM.set_commands].
        apply lookup_delete_eq.
      * intros _. cbn [table_entry ScaleM.commands ScaleM.set_commands].
        apply lookup_delete_eq.
    + repeat split; done.
Qed.

Lemma shed_loop_effect (cmds : list ScaleM.Command) (bot : ScaleM.Client) :
  let bot' := (ScaleM.for_each ScaleM.shed_command cmds bot).2 in
  ScaleM.scales bot' = ScaleM.scales bot /\
  ScaleM.listeners bot' = ScaleM.listeners bot /\
  (forall c, c ∉ cmds -> table_entry bot' c = table_entry bot c) /\
  (forall c, table_entry bot c = None -> table_entry bot' c = None).
Proof.
  revert bot. induction cmds as [|cmd cmds IH]; intros bot; cbv zeta.
  - done.
  - cbn [ScaleM.for_each]. unfold mbind, M_bind, bind.
    destruct (shed_command_effect cmd bot) as (Hs & Hl & Hother & Hnone & _).
    cbv zeta in *.
    assert (Hmono : forall c, table_entry bot c = None ->
                              table_entry (ScaleM.shed_command cmd bot).2 c = None).
    { intros c Hc. destruct (decide (c = cmd)) as [->|Hne]; [by apply Hnone|].
      by rewrite Hother. }
    destruct (ScaleM.shed_command cmd bot) as [[[]|x] bot1]; cbn [fst snd] in *.
    + destruct (IH bot1) as (Hs' & Hl' & Hother' & Hnone'). cbv zeta in *.
      split; [congruence|]. split; [congruence|]. split.
      * intros c Hc. apply not_elem_of_cons in Hc as [Hne Hc].
        rewrite Hother' by done. by apply Hother.
      * intros c Hc. apply Hnone'. by apply Hmono.
    + split; [done|]. split; [done|]. split; [|done].
      intros c Hc. apply not_elem_of_cons in Hc as [Hne Hc]. by apply Hother.
Qed.

Lemma table_entry_set_scales (sc : gmap string string) (bot : ScaleM.Client)
    (c : ScaleM.Command) :
  table_entry (ScaleM.set_scales sc bot) c = table_entry bot c.
Proof. by destruct c. Qed.

(** [shed], however it ends, leaves the client's listeners where they are
    (those the scale registered stay registered) and touches no command
    other than the ones the scale holds: an entry under another name, or
    under the same name in another scope, is what it was. *)
Theorem shed_frame (this : ScaleM.Scale) (bot : ScaleM.Client) :
  ScaleM.listeners (ScaleM.shed this bot).2 = ScaleM.listeners bot /\
  forall c, c ∉ ScaleM._commands this ->
            table_entry (ScaleM.shed this bot).2 c = table_entry bot c.
Proof.
  destruct (shed_loop_effect (ScaleM._commands this) bot) as (_ & Hl & Hother & _).
  cbv zeta in *.
  unfold ScaleM.shed, mbind, M_bind, bind, get_state, put_state, throw.
  destruct (ScaleM.for_each ScaleM.shed_command (ScaleM._commands this) bot)
    as [[[]|x] bot1]; cbn [fst snd] in *; [|done].
  destruct (ScaleM.dunder_name this) as [n|]; [|done].
  destruct (ScaleM.scales bot1 !! n); [|done].
  cbn [fst snd]. split; [done|].
  intros c Hc. rewrite table_entry_set_scales. by apply Hother.
Qed.

Lemma shed_frame_witness :
  table_entry (ScaleM.shed ping_scale empty_client).2 (ScaleM.MessageCommand "pong")
  = table_entry empty_client (ScaleM.MessageCommand "pong").
Proof.
  apply (proj2 (shed_frame ping_scale empty_client)).
  unfold ping_scale. cbn [ScaleM._commands]. intros H.
  apply elem_of_cons in H as [H|H]; [discriminate H | by apply elem_of_nil in H].
Defined.

Lemma shed_loop_removes (cmds : list ScaleM.Command) (bot : ScaleM.Client) :
  NoDup (message_names cmds) ->
  (forall n, n ∈ message_names cmds -> is_Some (ScaleM.commands bot !! n)) ->
  exists bot',
    ScaleM.for_each ScaleM.shed_command cmds bot = (Ok tt, bot') /\
    forall c, c ∈ cmds -> table_entry bot' c = None.
Proof.
  revert bot. induction cmds as [|cmd cmds IH]; intros bot Hnd Hreg.
  - exists bot. split; [done|]. intros c Hc. by apply elem_of_nil in Hc.
  - cbn [ScaleM.for_each]. unfold mbind, M_bind, bind.
    destruct (shed_command_effect cmd bot) as (_ & _ & Hother & _ & Hgone).
    cbv zeta in *.
    assert (Hstep : exists bot1,
      ScaleM.shed_command cmd bot = (Ok tt, bot1) /\
      NoDup (message_names cmds) /\
      forall n, n ∈ message_names cmds -> is_Some (ScaleM.commands bot1 !! n)).
    { destruct cmd as [n sc | n].
      - destruct (shed_command_interaction n sc bot) as (bot1 & Heq & Hc & _).
        exists bot1. split; [done|]. split; [exact Hnd|].
        intros m Hm. rewrite Hc. by apply Hreg.
      - cbn [message_names omap] in Hnd, Hreg.
        apply NoDup_cons in Hnd as [Hnotin Hnd].
        rewrite shed_command_message.
        destruct (Hreg n ltac:(apply elem_of_cons; by left)) as [v ->].
        eexists. split; [reflexivity|]. split; [exact Hnd|].
        intros m Hm. cbn [ScaleM.commands ScaleM.set_commands].
        rewrite lookup_delete_ne by (intros ->; done).
        apply Hreg. apply elem_of_cons. by right. }
    destruct Hstep as (bot1 & Heq & Hnd1 & Hreg1).
    rewrite Heq in Hgone |- *. cbn [fst snd] in Hgone.
    destruct (IH bot1 Hnd1 Hreg1) as (bot' & Hloop & Hall).
    exists bot'. split; [exact Hloop|].
    intros c [-> | Hc]%elem_of_cons; [|by apply Hall].
    destruct (shed_loop_effect cmds bot1) as (_ & _ & _ & Hmono). cbv zeta in Hmono.
    rewrite Hloop in Hmono. cbn [snd] in Hmono. apply Hmono. by apply Hgone.
Qed.

(** When the message commands of a scale have distinct names and are all
    in the client's table, [shed] takes every command of the scale out of
    the tables.  For a scale as [__new__] builds it, [shed] then stops with
    [AttributeError] and the registry of scales is what it was. *)
Theorem shed_removes_commands (this : ScaleM.Scale) (bot : ScaleM.Client) :
  NoDup (message_names (ScaleM._commands this)) ->
  (forall n, n ∈ message_names (ScaleM._commands this) ->
             is_Some (ScaleM.commands bot !! n)) ->
  (forall c, c ∈ ScaleM._commands this ->
             table_entry (ScaleM.shed this bot).2 c = None) /\
  (ScaleM.dunder_name this = None ->
   (ScaleM.shed this bot).1 = Raise (AttributeError "__name__") /\
   ScaleM.scales (ScaleM.shed this bot).2 = ScaleM.scales bot).
Proof.
  intros Hnd Hreg.
  destruct (shed_loop_removes _ bot Hnd Hreg) as (bot1 & Hloop & Hall).
  destruct (shed_loop_effect (ScaleM._commands this) bot) as (Hs & _).
  cbv zeta in Hs. rewrite Hloop in Hs. cbn [snd] in Hs.
  unfold ScaleM.shed, mbind, M_bind, bind, get_state, put_state, throw.
  rewrite Hloop. split.
  - intros c Hc.
    destruct (ScaleM.dunder_name this) as [n|]; [|by apply Hall].
    destruct (ScaleM.scales bot1 !! n); [|by apply Hall].
    cbn [snd]. rewrite table_entry_set_scales. by apply Hall.
  - intros ->. done.
Qed.

Lemma shed_removes_commands_witness :
  table_entry
    (ScaleM.shed ping_scale
       (ScaleM.set_commands {["ping" := ScaleM.MessageCommand "ping"]} empty_client)).2
    (ScaleM.MessageCommand "ping") = None.
Proof.
  apply (proj1 (shed_removes_commands ping_scale
                  (ScaleM.set_commands {["ping" := ScaleM.MessageCommand "ping"]}
                     empty_client)
                  ltac:(repeat constructor; intros H; by apply elem_of_nil in H)
                  ltac:(intros n Hn;
                        apply elem_of_cons in Hn as [-> | Hn];
                        [by eexists | by apply elem_of_nil in Hn]))).
  unfold ping_scale. cbn [ScaleM._commands]. apply elem_of_cons. by left.
Defined.

(** A second command of the same name makes the loop of [shed] fail: once
    the first turn has taken the name out of the table, the subscript of the
    next turn raises [KeyError]. *)
Theorem shed_duplicate_message_name (this : ScaleM.Scale) (n : string)
    (rest : list ScaleM.Command) (bot : ScaleM.Client) :
  ScaleM._commands this
  = ScaleM.MessageCommand n :: ScaleM.MessageCommand n :: rest ->
  (ScaleM.shed this bot).1 = Raise (KeyError n) /\
  ScaleM.commands (ScaleM.shed this bot).2 !! n = None.
Proof.
  intros Hcmds. unfold ScaleM.shed. rewrite Hcmds.
  cbn [ScaleM.for_each]. unfold mbind, M_bind, bind.
  rewrite shed_command_message.
  destruct (ScaleM.commands bot !! n) eqn:Hn; [|done].
  rewrite shed_command_message. cbn [ScaleM.commands ScaleM.set_commands].
  rewrite lookup_delete_eq. cbn [fst snd ScaleM.commands ScaleM.set_commands].
  split; [reflexivity | apply lookup_delete_eq].
Qed.

Lemma shed_duplicate_message_name_witness :
  (ScaleM.shed
     (ScaleM.mkScale "Twice" None
        [ScaleM.MessageCommand "ping"; ScaleM.MessageCommand "ping"]
        [] [] [] None None None)
     (ScaleM.set_commands {["ping" := ScaleM.MessageCommand "ping"]} empty_client)).1
  = Raise (KeyError "ping").
Proof.
  exact (proj1 (shed_duplicate_message_name
                  (ScaleM.mkScale "Twice" None
                     [ScaleM.MessageCommand "ping"; ScaleM.MessageCommand "ping"]
                     [] [] [] None None None)
                  "ping" []
                  (ScaleM.set_commands {["ping" := ScaleM.MessageCommand "ping"]}
                     empty_client)
                  eq_refl)).
Defined.

(** ** scale.py: registration followed by shedding *)

Lemma register_attr_effect (a : ScaleM.ClassAttr) (bot : ScaleM.Client) :
  exists bot',
    ScaleM.register_attr a bot = (Ok tt, bot') /\
    ScaleM.scales bot' = ScaleM.scales bot /\
    (forall c, table_entry bot c = Some c -> table_entry bot' c = Some c) /\
    (forall c, a = ScaleM.ACommand c -> table_entry bot' c = Some c).
Proof.
  destruct a as [[n sc | n] | l |]; cbn [ScaleM.register_attr];
    unfold ScaleM.add_interaction, ScaleM.add_message_command, ScaleM.add_listener,
      mbind, M_bind, bind, get_state, put_state, mret, M_ret, ret;
    eexists; (split; [reflexivity|]); (split; [reflexivity|]); split.
  - intros [n' sc' | n'] Hc; cbn [table_entry] in *; [|exact Hc].
    unfold interaction_at in *. cbn [ScaleM.interactions ScaleM.set_interactions].
    destruct (decide (sc' = sc)) as [->|Hsc].
    + rewrite lookup_insert_eq.
      destruct (decide (n' = n)) as [->|Hn]; [by rewrite lookup_insert_eq|].
      rewrite lookup_insert_ne by done.
      by destruct (ScaleM.interactions bot !! sc).
    + by rewrite lookup_insert_ne.
  - intros c [= <-]. cbn [table_entry]. unfold interaction_at.
    cbn [ScaleM.interactions ScaleM.set_interactions].
    by rewrite !lookup_insert_eq.
  - intros [n' sc' | n'] Hc; cbn [table_entry] in *; [exact Hc|].
    cbn [ScaleM.commands ScaleM.set_commands].
    destruct (decide (n' = n)) as [->|Hn]; [by rewrite lookup_insert_eq|].
    by rewrite lookup_insert_ne.
  - intros c [= <-]. cbn [table_entry ScaleM.commands ScaleM.set_commands].
    by rewrite lookup_insert_eq.
  - by intros [].
  - discriminate.
  - done.
  - discriminate.
Qed.

Lemma register_all_effect (class_dict : list ScaleM.ClassAttr) (bot : ScaleM.Client) :
  exists bot',
    ScaleM.for_each ScaleM.register_attr class_dict bot = (Ok tt, bot') /\
    ScaleM.scales bot' = ScaleM.scales bot /\
    (forall c, table_entry bot c = Some c -> table_entry bot' c = Some c) /\
    (forall c, c ∈ ScaleM.declared_commands class_dict -> table_entry bot' c = Some c).
Proof.
  revert bot. induction class_dict as [|a l IH]; intros bot.
  - exists bot. repeat split; try done. intros c Hc. by apply elem_of_nil in Hc.
  - cbn [ScaleM.for_each]. unfold mbind, M_bind, bind.
    destruct (register_attr_effect a bot) as (bot1 & -> & Hs1 & Hkeep1 & Hown1).
    destruct (IH bot1) as (bot' & Hloop & Hs' & Hkeep' & Hown').
    exists bot'. split; [exact Hloop|]. split; [congruence|]. split.
    + intros c Hc. by apply Hkeep', Hkeep1.
    + intros c Hc. unfold ScaleM.declared_commands in Hc. cbn [omap] in Hc.
      destruct a as [c0 | l0 |]; [|by apply Hown'..].
      apply elem_of_cons in Hc as [-> | Hc]; [|by apply Hown'].
      apply Hkeep'. by apply Hown1.
Qed.

(** A scale is built by [__new__] and then shed.  Its commands, listed in
    the order of the class body, are all in the client's tables after
    [__new__]; if its message commands have distinct names, [shed] takes
    every one of them out again, but ends in [AttributeError] and the scale
    is still in the registry under its class name. *)
Theorem new_then_shed (cls_name : string) (class_dict : list ScaleM.ClassAttr)
    (bot : ScaleM.Client) :
  NoDup (message_names (ScaleM.declared_commands class_dict)) ->
  exists this bot1,
    ScaleM.new cls_name class_dict bot = (Ok this, bot1) /\
    ScaleM._commands this = ScaleM.declared_commands class_dict /\
    ScaleM.scales bot1 !! cls_name = Some cls_name /\
    (forall c, c ∈ ScaleM._commands this -> table_entry bot1 c = Some c) /\
    (ScaleM.shed this bot1).1 = Raise (AttributeError "__name__") /\
    (forall c, c ∈ ScaleM._commands this ->
               table_entry (ScaleM.shed this bot1).2 c = None) /\
    ScaleM.scales (ScaleM.shed this bot1).2 !! cls_name = Some cls_name.
Proof.
  intros Hnd.
  destruct (register_all_effect class_dict
              (ScaleM.set_scales (<[cls_name := cls_name]> (ScaleM.scales bot)) bot))
    as (bot1 & Hreg & Hs & _ & Hown).
  unfold ScaleM.new, mbind, M_bind, bind, get_state, put_state, mret, M_ret, ret.
  rewrite Hreg. eexists _, bot1. split; [reflexivity|].
  cbn [ScaleM._commands]. split; [reflexivity|].
  assert (Hscale : ScaleM.scales bot1 !! cls_name = Some cls_name).
  { rewrite Hs. cbn [ScaleM.scales ScaleM.set_scales]. apply lookup_insert_eq. }
  split; [exact Hscale|]. split; [exact Hown|].
  assert (Hpresent : forall n, n ∈ message_names (ScaleM.declared_commands class_dict) ->
                               is_Some (ScaleM.commands bot1 !! n)).
  { intros n Hn. unfold message_names in Hn.
    apply list_elem_of_omap in Hn as (c & Hc & Hcn).
    destruct c as [|m]; [discriminate|]. injection Hcn as ->.
    specialize (Hown _ Hc). cbn [table_entry] in Hown. by rewrite Hown. }
  destruct (shed_loop_removes _ bot1 Hnd Hpresent) as (bot2 & Hloop & Hall).
  destruct (shed_loop_effect (ScaleM.declared_commands class_dict) bot1) as (Hs2 & _).
  cbv zeta in Hs2. rewrite Hloop in Hs2. cbn [snd] in Hs2.
  unfold ScaleM.shed, mbind, M_bind, bind, throw.
  cbn [ScaleM._commands ScaleM.dunder_name]. rewrite Hloop. cbn [fst snd].
  split; [reflexivity|]. split; [exact Hall|]. by rewrite Hs2.
Qed.

Lemma new_then_shed_witness :
  exists this bot1,
    ScaleM.new "PingScale" ping_class empty_client = (Ok this, bot1) /\
    ScaleM._commands this = ScaleM.declared_commands ping_class /\
    ScaleM.scales bot1 !! "PingScale" = Some "PingScale" /\
    (forall c, c ∈ ScaleM._commands this -> table_entry bot1 c = Some c) /\
    (ScaleM.shed this bot1).1 = Raise (AttributeError "__name__") /\
    (forall c, c ∈ ScaleM._commands this ->
               table_entry (ScaleM.shed this bot1).2 c = None) /\
    ScaleM.scales (ScaleM.shed this bot1).2 !! "PingScale" = Some "PingScale".
Proof.
  apply (new_then_shed "PingScale" ping_class empty_client).
  repeat constructor. intros H. by apply elem_of_nil in H.
Defined.

(** ** scale.py: hooks *)

Lemma add_scale_checks_all (good : list ScaleM.Callable) (s : ScaleM.Scale) :
  Forall (fun c => ScaleM.iscoroutinefunction c = true) good ->
  exists s', ScaleM.for_each ScaleM.add_scale_check good s = (Ok tt, s') /\
             ScaleM.scale_checks s' = (ScaleM.scale_checks s ++ good)%list.
Proof.
  intros Hall. revert s. induction Hall as [|c good Hc _ IH]; intros s.
  - exists s. split; [done|]. by rewrite app_nil_r.
  - cbn [ScaleM.for_each]. unfold mbind, M_bind, bind.
    destruct (add_scale_check_ok c s Hc) as (s1 & -> & Hs1 & _).
    destruct (IH s1) as (s' & Hloop & Hs').
    exists s'. split; [exact Hloop|]. by rewrite Hs', Hs1, <- app_assoc.
Qed.

(** Checks registered one after the other are kept in that order behind
    the ones already there.  A registration that is refused stops the
    sequence with [TypeError]; the checks registered before it stay. *)
Theorem add_scale_check_sequence (good : list ScaleM.Callable) (s : ScaleM.Scale) :
  Forall (fun c => ScaleM.iscoroutinefunction c = true) good ->
  (exists s', ScaleM.for_each ScaleM.add_scale_check good s = (Ok tt, s') /\
              ScaleM.scale_checks s' = (ScaleM.scale_checks s ++ good)%list) /\
  (forall bad rest, ScaleM.iscoroutinefunction bad = false ->
     exists s', ScaleM.for_each ScaleM.add_scale_check (good ++ bad :: rest)%list s
                = (Raise (TypeError "Check must be a coroutine"), s') /\
                ScaleM.scale_checks s' = (ScaleM.scale_checks s ++ good)%list).
Proof.
  intros Hall. split; [by apply add_scale_checks_all|].
  intros bad rest Hbad. revert s.
  induction Hall as [|c good Hc _ IH]; intros s.
  - exists s. cbn [app ScaleM.for_each]. unfold mbind, M_bind, bind.
    unfold ScaleM.add_scale_check. rewrite Hbad. cbn [negb].
    split; [reflexivity|]. by rewrite app_nil_r.
  - cbn [app ScaleM.for_each]. unfold mbind, M_bind, bind.
    destruct (add_scale_check_ok c s Hc) as (s1 & -> & Hs1 & _).
    destruct (IH s1) as (s' & Hloop & Hs').
    exists s'. split; [exact Hloop|]. by rewrite Hs', Hs1, <- app_assoc.
Qed.

Lemma add_scale_check_sequence_witness :
  exists s',
    ScaleM.for_each ScaleM.add_scale_check
      [ScaleM.mkCallable 1 true; ScaleM.mkCallable 2 true] ping_scale = (Ok tt, s') /\
    ScaleM.scale_checks s'
    = (ScaleM.scale_checks ping_scale
         ++ [ScaleM.mkCallable 1 true; ScaleM.mkCallable 2 true])%list.
Proof.
  apply (proj1 (add_scale_check_sequence
                  [ScaleM.mkCallable 1 true; ScaleM.mkCallable 2 true] ping_scale
                  ltac:(repeat constructor))).
Defined.

(** Where a registered check ends up.  While the class's list is empty, as
    [__new__] leaves it, or once the instance has a list of its own, the
    check goes to the instance and the class's list is untouched.  When the
    instance has none and the class's list is not empty, it is the class's
    list that grows. *)
Theorem add_scale_check_target (c : ScaleM.Callable) (s : ScaleM.Scale) :
  ScaleM.iscoroutinefunction c = true ->
  (ScaleM.cls_scale_checks s = [] \/ ScaleM.self_scale_checks s <> None ->
     ScaleM.cls_scale_checks (ScaleM.add_scale_check c s).2 = ScaleM.cls_scale_checks s /\
     ScaleM.self_scale_checks (ScaleM.add_scale_check c s).2
     = Some (ScaleM.scale_checks s ++ [c])%list) /\
  (ScaleM.self_scale_checks s = None -> ScaleM.cls_scale_checks s <> [] ->
     ScaleM.cls_scale_checks (ScaleM.add_scale_check c s).2
     = (ScaleM.cls_scale_checks s ++ [c])%list /\
     ScaleM.self_scale_checks (ScaleM.add_scale_check c s).2 = None).
Proof.
  intros Hc. unfold ScaleM.add_scale_check. rewrite Hc. cbn [negb].
  unfold mbind, M_bind, bind, get_state, put_state, mret, M_ret, ret.
  unfold ScaleM.scale_checks.
  destruct s as [n dn cmds cc cp cq [sc|] sp sq];
    cbn [default from_option id ScaleM.self_scale_checks ScaleM.cls_scale_checks].
  - split; [|discriminate]. intros _. by destruct sc.
  - split.
    + intros [-> | Hne]; [done | by destruct Hne].
    + intros _ Hne. by destruct cc.
Qed.

Lemma add_scale_check_target_witness :
  ScaleM.cls_scale_checks
    (ScaleM.add_scale_check (ScaleM.mkCallable 1 true) ping_scale).2 = [] /\
  ScaleM.self_scale_checks
    (ScaleM.add_scale_check (ScaleM.mkCallable 1 true) ping_scale).2
  = Some [ScaleM.mkCallable 1 true].
Proof.
  exact (proj1 (add_scale_check_target (ScaleM.mkCallable 1 true) ping_scale eq_refl)
           (or_introl eq_refl)).
Defined.

(** ** utils/misc_utils.py: [escape_mentions] *)

Lemma no_at_weaken (k : nat) (s : string) :
  no_at (S k) s = true -> no_at k s = true.
Proof.
  revert s. induction k as [|k IH]; intros s; [done|].
  destruct s as [|c r]; [done|]. cbn [no_at].
  intros [Hc Hr]%andb_prop. rewrite Hc. cbn [andb]. by apply IH.
Qed.

Lemma prefix_no_at (p r : string) :
  no_at (String.length p) p = true -> String.prefix p r = true ->
  no_at (String.length p) r = true.
Proof.
  revert r. induction p as [|a p IH]; intros r Hp Hpre; [done|].
  destruct r as [|c r]; [done|].
  cbn [String.length no_at String.prefix] in *.
  destruct (Ascii.ascii_dec a c) as [->|]; [|discriminate].
  apply andb_prop in Hp as [Ha Hp]. rewrite Ha. cbn [andb]. by apply IH.
Qed.

Lemma is_digit_not_at (c : ascii) :
  MiscUtils.is_digit c = true -> Ascii.eqb c MiscUtils.at_sign = false.
Proof.
  intros Hd. destruct (Ascii.eqb_spec c MiscUtils.at_sign) as [->|]; [|done].
  discriminate Hd.
Qed.

Lemma leading_digits_no_at (k : nat) (s : string) :
  (k <= MiscUtils.leading_digits s)%nat -> no_at k s = true.
Proof.
  revert s. induction k as [|k IH]; intros s Hk; [done|].
  destruct s as [|c r]; [done|]. cbn [no_at MiscUtils.leading_digits] in *.
  destruct (MiscUtils.is_digit c) eqn:Hd; [|lia].
  rewrite (is_digit_not_at c Hd). cbn [negb andb]. apply IH. lia.
Qed.

Lemma digits_17_20_no_at (s : string) (len : nat) :
  MiscUtils.digits_17_20 s = Some len -> no_at len s = true.
Proof.
  unfold MiscUtils.digits_17_20.
  destruct (17 <=? MiscUtils.leading_digits s)%nat; [|discriminate].
  intros H.
  assert (Hlen : len = Nat.min 20 (MiscUtils.leading_digits s)) by congruence.
  rewrite Hlen. apply leading_digits_no_at, Nat.le_min_r.
Qed.

(** What the group matches holds no [@]. *)
Lemma mention_group_no_at (s : string) (len : nat) :
  MiscUtils.mention_group s = Some len -> no_at len s = true.
Proof.
  unfold MiscUtils.mention_group.
  destruct (String.prefix "everyone" s) eqn:He.
  { intros [= <-]. by apply (prefix_no_at "everyone"). }
  destruct (String.prefix "here" s) eqn:Hh.
  { intros [= <-]. by apply (prefix_no_at "here"). }
  destruct s as [|c r]; [discriminate|].
  destruct (Ascii.eqb c "!" || Ascii.eqb c "&")%char eqn:Hc.
  - destruct (MiscUtils.digits_17_20 r) as [m|] eqn:Hm; [|discriminate].
    intros [= <-]. cbn [no_at]. rewrite (digits_17_20_no_at r m Hm).
    apply orb_prop in Hc as [Hc | Hc]; apply Ascii.eqb_eq in Hc; by subst c.
  - apply digits_17_20_no_at.
Qed.

(** The counter of [sub_go] changes nothing: the characters it lets through
    are those of a match. *)
Lemma sub_go_sub_each (k : nat) (s : string) :
  no_at k s = true -> MiscUtils.sub_go k s = sub_each s.
Proof.
  revert k. induction s as [|c r IH]; intros k Hk; [by destruct k|].
  destruct k as [|k]; cbn [MiscUtils.sub_go sub_each].
  - destruct (Ascii.eqb c MiscUtils.at_sign); cbn [andb].
    + destruct (MiscUtils.mention_group r) as [len|] eqn:Hg.
      * rewrite bool_decide_eq_true_2 by eauto.
        by rewrite (IH len (mention_group_no_at r len Hg)).
      * rewrite bool_decide_eq_false_2 by (intros [? ?]; discriminate).
        by rewrite (IH O).
    + by rewrite (IH O).
  - cbn [no_at] in Hk. apply andb_prop in Hk as [Hc Hr].
    apply negb_true_iff in Hc. rewrite Hc. cbn [andb]. by rewrite (IH k Hr).
Qed.

Lemma escape_mentions_sub_each (s : string) :
  MiscUtils.escape_mentions s = sub_each s.
Proof. by apply sub_go_sub_each. Qed.

Lemma prefix_sub_each (p r : string) :
  no_at (String.length p) p = true ->
  String.prefix p (sub_each r) = String.prefix p r.
Proof.
  revert r. induction p as [|a p IH]; intros r Hp; [by destruct (sub_each r), r|].
  cbn [String.length no_at] in Hp. apply andb_prop in Hp as [Ha Hp].
  apply negb_true_iff in Ha.
  destruct r as [|c r]; [done|]. cbn [sub_each].
  destruct (Ascii.eqb c MiscUtils.at_sign && _) eqn:Hm; cbn [String.prefix].
  - apply andb_prop in Hm as [Hc _]. apply Ascii.eqb_eq in Hc. subst c.
    destruct (Ascii.ascii_dec a MiscUtils.at_sign) as [->|]; [|done].
    by rewrite Ascii.eqb_refl in Ha.
  - destruct (Ascii.ascii_dec a c); [by apply IH | done].
Qed.

Lemma leading_digits_sub_each (r : string) :
  MiscUtils.leading_digits (sub_each r) = MiscUtils.leading_digits r.
Proof.
  induction r as [|c r IH]; [done|]. cbn [sub_each].
  destruct (Ascii.eqb c MiscUtils.at_sign && _) eqn:Hm; cbn [MiscUtils.leading_digits].
  - apply andb_prop in Hm as [Hc _]. apply Ascii.eqb_eq in Hc. by subst c.
  - by rewrite IH.
Qed.

Lemma digits_17_20_sub_each (r : string) :
  MiscUtils.digits_17_20 (sub_each r) = MiscUtils.digits_17_20 r.
Proof. unfold MiscUtils.digits_17_20. by rewrite leading_digits_sub_each. Qed.

(** Escaping what follows an [@] does not change whether the [@] starts a
    match. *)
Lemma mention_group_sub_each (r : string) :
  MiscUtils.mention_group (sub_each r) = MiscUtils.mention_group r.
Proof.
  unfold MiscUtils.mention_group.
  rewrite !prefix_sub_each by done.
  destruct (String.prefix "everyone" r); [done|].
  destruct (String.prefix "here" r); [done|].
  destruct r as [|c r]; [done|].
  pose proof (digits_17_20_sub_each (String c r)) as Hall.
  cbn [sub_each] in *.
  destruct (Ascii.eqb c MiscUtils.at_sign && _) eqn:Hm.
  - apply andb_prop in Hm as [Hc _]. apply Ascii.eqb_eq in Hc. subst c.
    exact Hall.
  - destruct (Ascii.eqb c "!" || Ascii.eqb c "&")%char; [|exact Hall].
    by rewrite digits_17_20_sub_each.
Qed.

Lemma has_mention_zwsp (s : string) :
  MiscUtils.mention_group (MiscUtils.ZWSP +:+ s) = None /\
  has_mention (MiscUtils.ZWSP +:+ s) = has_mention s.
Proof. split; reflexivity. Qed.

Lemma sub_each_no_mention (s : string) : has_mention (sub_each s) = false.
Proof.
  induction s as [|c r IH]; [done|]. cbn [sub_each].
  destruct (Ascii.eqb c MiscUtils.at_sign && _) eqn:Hm; cbn [has_mention].
  - destruct (has_mention_zwsp (sub_each r)) as [-> ->].
    rewrite IH. rewrite bool_decide_eq_false_2 by (intros [? ?]; discriminate).
    by rewrite andb_false_r.
  - by rewrite mention_group_sub_each, Hm, IH.
Qed.

Lemma sub_each_fixed (s : string) : has_mention s = false -> sub_each s = s.
Proof.
  induction s as [|c r IH]; [done|]. cbn [has_mention sub_each].
  intros [-> Hr]%orb_false_elim. by rewrite (IH Hr).
Qed.

Lemma sub_each_length (s : string) :
  String.length (sub_each s) = (String.length s + 3 * count_mentions s)%nat.
Proof.
  induction s as [|c r IH]; [done|]. cbn [sub_each count_mentions].
  destruct (Ascii.eqb c MiscUtils.at_sign && _); cbn [String.length].
  - rewrite string_length_app, IH. cbn [String.length MiscUtils.ZWSP]. lia.
  - rewrite IH. lia.
Qed.

Lemma count_mentions_zero (s : string) :
  count_mentions s = O <-> has_mention s = false.
Proof.
  induction s as [|c r IH]; [done|]. cbn [count_mentions has_mention].
  destruct (Ascii.eqb c MiscUtils.at_sign && _); cbn [orb].
  - split; [lia | discriminate].
  - exact IH.
Qed.

(** [escape_mentions] leaves a text as it is exactly when [mention_reg]
    matches nowhere in it; a text without [@] is such a text. *)
Theorem escape_mentions_unchanged_iff (content : string) :
  (MiscUtils.escape_mentions content = content <-> has_mention content = false) /\
  (no_at (String.length content) content = true -> has_mention content = false).
Proof.
  rewrite escape_mentions_sub_each. split; [split|].
  - intros Heq. apply count_mentions_zero.
    pose proof (sub_each_length content) as Hlen. rewrite Heq in Hlen. lia.
  - apply sub_each_fixed.
  - induction content as [|c r IH]; [done|].
    cbn [String.length no_at has_mention].
    intros [Hc Hr]%andb_prop. apply negb_true_iff in Hc.
    rewrite Hc. cbn [andb orb]. by apply IH.
Qed.

Lemma escape_mentions_unchanged_iff_witness :
  has_mention "mail me: a at b dot c" = false.
Proof.
  exact (proj2 (escape_mentions_unchanged_iff "mail me: a at b dot c") eq_refl).
Defined.

(** In the escaped text [mention_reg] matches nowhere: no [@everyone], no
    [@here], no user or role mention is left to ping anyone. *)
Theorem escape_mentions_no_mention (content : string) :
  has_mention (MiscUtils.escape_mentions content) = false.
Proof. rewrite escape_mentions_sub_each. apply sub_each_no_mention. Qed.

(** Escaping twice is escaping once. *)
Theorem escape_mentions_idempotent (content : string) :
  MiscUtils.escape_mentions (MiscUtils.escape_mentions content)
  = MiscUtils.escape_mentions content.
Proof.
  rewrite !escape_mentions_sub_each.
  apply sub_each_fixed, sub_each_no_mention.
Qed.

(** The escaped text is longer than the text by the three bytes of a
    zero-width space for every match, and by nothing else. *)
Theorem escape_mentions_length (content : string) :
  String.length (MiscUtils.escape_mentions content)
  = (String.length content + 3 * count_mentions content)%nat.
Proof. rewrite escape_mentions_sub_each. apply sub_each_length. Qed.

(** ** emoji.py and sticker.py: what the edits send *)

(** [CustomEmoji.edit] has no check of the guild identifier, unlike
    [CustomEmoji.delete] and [Sticker.edit]: for an emoji that knows no
    guild it still makes its one call, with [None] as the guild. *)
Theorem custom_emoji_edit_unguarded
    (answer : Answer) (update_from_dict : value -> M EmojiM.CustomEmoji unit)
    (name roles reason : option value) (e : EmojiM.CustomEmoji) (h : Http) :
  EmojiM._guild_id e = None ->
  (EmojiM.edit answer update_from_dict name roles reason (e, h)).2.2
  = (h ++ [modify_guild_emoji (EmojiM.edit_payload name roles) None (EmojiM.id e)
             (param VNone reason)])%list /\
  EmojiM.delete answer reason (e, h)
  = (Raise (ValueError "Cannot delete emoji, no guild id set."), (e, h)).
Proof.
  intros Hg. split.
  - rewrite custom_emoji_edit_call. by rewrite Hg.
  - unfold EmojiM.delete, mbind, M_bind, bind, self. cbn [fst snd]. by rewrite Hg.
Qed.

Lemma custom_emoji_edit_unguarded_witness :
  (EmojiM.edit (fun _ _ => Ok VNone) (fun _ e => (Ok tt, e))
     (Some (VStr "blob")) None None
     ({| EmojiM.id := Some 9; EmojiM.name := VStr "b"; EmojiM.animated := VBool false;
         EmojiM._client := SnakeRef 0; EmojiM.require_colons := VBool false;
         EmojiM.managed := VBool false; EmojiM.available := VBool true;
         EmojiM._creator_id := None; EmojiM._role_ids := Some [];
         EmojiM._guild_id := None |}, [])).2.2
  = [modify_guild_emoji [("name", VStr "blob")] None (Some 9) VNone].
Proof.
  exact (proj1 (custom_emoji_edit_unguarded (fun _ _ => Ok VNone)
                  (fun _ e => (Ok tt, e)) (Some (VStr "blob")) None None
                  {| EmojiM.id := Some 9; EmojiM.name := VStr "b";
                     EmojiM.animated := VBool false;
                     EmojiM._client := SnakeRef 0; EmojiM.require_colons := VBool false;
                     EmojiM.managed := VBool false; EmojiM.available := VBool true;
                     EmojiM._creator_id := None; EmojiM._role_ids := Some [];
                     EmojiM._guild_id := None |} [] eq_refl)).
Defined.

(** The payload of [Sticker.edit] has a field unless [None] is passed for
    it: a parameter that is left out stands as [MISSING] in the payload,
    and only an explicit [None] takes the field out. *)
Theorem sticker_edit_payload_keys (name description tags : option value) (k : string) :
  dict_contains k (StickerM.edit_payload name description tags) = true <->
  (k = "name" /\ name <> Some VNone) \/
  (k = "description" /\ description <> Some VNone) \/
  (k = "tags" /\ tags <> Some VNone).
Proof.
  assert (Hp : forall o : option value,
             is_none (param VMissing o) = true <-> o = Some VNone).
  { intros [[]|]; cbn; split; intros H; congruence. }
  unfold StickerM.edit_payload, Serializer.dict_filter_none, dict_contains.
  cbn [List.filter snd].
  destruct (is_none (param VMissing name)) eqn:Hn,
           (is_none (param VMissing description)) eqn:Hd,
           (is_none (param VMissing tags)) eqn:Ht;
    cbn [negb dict_get];
    repeat match goal with
           | H : is_none (param VMissing ?o) = true |- _ => apply Hp in H; subst o
           | H : is_none (param VMissing ?o) = false |- _ =>
               let Hf := fresh "Hf" in
               assert (Hf : o <> Some VNone)
                 by (intros Heq; apply Hp in Heq; congruence);
               clear H
           | |- context [String.eqb ?a ?b] => destruct (String.eqb_spec a b)
           end; subst; split; intros Hk; try discriminate; try tauto;
    try (destruct Hk as [[? ?] | [[? ?] | [? ?]]]; congruence).
Qed.

Lemma process_emoji_string_witness :
  EmojiOps.process_emoji (fun e => [("name", EmojiOps.name e)])
    (EmojiOps.AValue (VStr "snek"))
  = EmojiOps.process_emoji (fun e => [("name", EmojiOps.name e)])
      (EmojiOps.AEmoji (EmojiOps.unicode "snek")).
Proof.
  apply (proj1 (process_emoji_string (fun e => [("name", EmojiOps.name e)]) "snek")).
  discriminate.
Defined.
